(** * crypto_vol: the volatility endpoint of [main.py]

    A shallow embedding of [get_volatility] (main.py, lines 36-114) and the
    properties of its three stages: the paginated range fetcher, the
    normalizer and the volatility estimator.

    Modelling conventions.
    - Python [int] is [Z]; millisecond timestamps are [Z].
    - A binary64 value is a finite real, an infinity or NaN
      ([Estimator.float64]).  Overflow to an infinity and underflow to zero
      are modelled where the code divides; the rounding of finite results
      is not: a finite cell holds the exact real.  A column that can only
      hold finite numbers and NaN (the rolling column, the scalars of the
      response) is a [list (option R)], [None] being NaN.
    - The wall clock of lines 43-47 is read as a number of milliseconds and
      the lookback is subtracted from it exactly, as in a zone with a
      fixed offset and within the years [datetime] can hold.
    - A page is a list of well-formed klines; [str.upper] is modelled on
      ASCII text.
    - The outbound HTTP call is an oracle indexed by the number of calls made
      so far, so that a reply may depend on the whole history.
    - The [while] loop is run with fuel; [None] means the fuel ran out. *)

From Stdlib Require Import String Ascii ZArith List Bool Arith Lia.
From Stdlib Require Import Reals Lra Permutation Sorted.
Import ListNotations.

Set Implicit Arguments.

(** ** Wire data *)

(** One kline as the exchange returns it: a 12-element array.  The pipeline
    reads column 0 (open time, an integer number of milliseconds) and the
    four price columns, which [astype(float)] turns into numbers; the other
    seven columns are carried in the frame and never read. *)
Record kline : Type := mk_kline {
  k_open_time : Z;
  k_open : R;
  k_high : R;
  k_low : R;
  k_close : R
}.

(** The query parameters of one outbound request (lines 54-60). *)
Record klines_params : Type := mk_params {
  p_symbol : string;
  p_interval : string;
  p_startTime : Z;
  p_endTime : Z;
  p_limit : Z
}.

(** What [requests.get(...)] followed by [raise_for_status()] and [.json()]
    gives: a decoded page, or a [RequestException] carrying a message. *)
Inductive reply : Type :=
| Page (data : list kline)
| Failed (msg : string).

(** The exceptions that can travel through the [try] block.  In FastAPI,
    [HTTPException] derives from [Exception] and not from
    [requests.exceptions.RequestException]. *)
Inductive py_exception : Type :=
| RequestException (msg : string)
| HTTPException (status_code : Z) (detail : string).

(** ** [str.upper] on ASCII text *)

(** Letters outside ASCII, which [str.upper] maps as Unicode does, are left
    as they are. *)

Definition upper_ascii (c : ascii) : ascii :=
  let n := nat_of_ascii c in
  if (97 <=? n)%nat && (n <=? 122)%nat then ascii_of_nat (n - 32) else c.

Fixpoint upper (s : string) : string :=
  match s with
  | EmptyString => EmptyString
  | String c s' => String (upper_ascii c) (upper s')
  end.

Module Fetcher.

Local Open Scope Z_scope.

(** [data[-1]] on a non-empty page; the default is never used. *)
Definition last_kline (data : list kline) : kline :=
  last data (mk_kline 0 0 0 0 0).

Section Loop.

(** The exchange: reply to the [n]-th outbound call. *)
Variable exchange : nat -> klines_params -> reply.
Variables (symbol interval : string) (end_ms : Z).

(** The local state of the loop: the number of calls made so far (ghost),
    [current_start_ms] and [all_data]. *)
Record loop_state : Type := mk_state {
  calls : nat;
  current_start_ms : Z;
  all_data : list kline
}.

Definition params_of (st : loop_state) : klines_params :=
  mk_params (upper symbol) interval (current_start_ms st) end_ms 1000.

(** What one pass through the loop body (lines 54-68) does. *)
Inductive body_result : Type :=
| Continue (st' : loop_state)
| Break
| Raise (e : py_exception).

Definition loop_body (st : loop_state) : body_result :=
  match exchange (calls st) (params_of st) with
  | Failed msg => Raise (RequestException msg)
  | Page [] => Break
  | Page data =>
      Continue (mk_state (S (calls st))
                         (k_open_time (last_kline data) + 300000)
                         (all_data st ++ data))
  end.

(** The [while current_start_ms < end_ms] loop (line 53).  The result is
    the final [all_data], or the exception that left the loop. *)
Fixpoint fetch_loop (fuel : nat) (st : loop_state)
  : option (py_exception + list kline) :=
  if current_start_ms st <? end_ms then
    match fuel with
    | O => None
    | S fuel' =>
        match loop_body st with
        | Continue st' => fetch_loop fuel' st'
        | Break => Some (inr (all_data st))
        | Raise e => Some (inl e)
        end
    end
  else Some (inr (all_data st)).

(** Ghost instrumentation: the pages the loop appended, in order. *)
Fixpoint fetched_pages (fuel : nat) (st : loop_state) : list (list kline) :=
  if current_start_ms st <? end_ms then
    match fuel with
    | O => []
    | S fuel' =>
        match exchange (calls st) (params_of st) with
        | Page (k :: data) =>
            (k :: data) ::
            fetched_pages fuel'
              (mk_state (S (calls st))
                        (k_open_time (last_kline (k :: data)) + 300000)
                        (all_data st ++ k :: data))
        | _ => []
        end
    end
  else [].

End Loop.

(** Lines 43-51: the range and the initial loop state.  [now_ms] is the wall
    clock reading in milliseconds.  The subtraction is exact: the
    [OverflowError] that [datetime] raises far outside
    [Reference.plain_lookback], and the hour a daylight-saving change adds
    or removes, are not modelled. *)
Definition start_ms_of (now_ms lookback_hours : Z) : Z :=
  now_ms - lookback_hours * 3600000.

Definition fetch (exchange : nat -> klines_params -> reply)
    (symbol interval : string) (lookback_hours now_ms : Z) (fuel : nat)
  : option (py_exception + list kline) :=
  fetch_loop exchange symbol interval now_ms fuel
    (mk_state 0 (start_ms_of now_ms lookback_hours) []).

End Fetcher.

(** ** Normalizer (lines 73-84) *)

Module Normalizer.

Local Open Scope Z_scope.

(** Building the frame, [to_datetime] on column 0 and [astype(float)] on
    the price columns leave one row per kline, in arrival order; a row is
    the kline with its fields read as numbers.  What remains is
    [df.sort_values('timestamp')] followed by [reset_index(drop=True)],
    after which a row's index is its position in the list. *)

Definition time_le (a b : kline) : Prop := k_open_time a <= k_open_time b.

(** What pandas documents for [sort_values] with its default
    [kind='quicksort']: the rows come back rearranged into ascending key
    order.  Nothing is promised about rows with equal keys (only the kinds
    'mergesort' and 'stable' are documented as stable). *)
Record sorts_by_timestamp (sort : list kline -> list kline) : Prop := {
  sort_permutes : forall l, Permutation l (sort l);
  sort_ascending : forall l, StronglySorted time_le (sort l)
}.

Definition normalize (sort_values : list kline -> list kline)
    (all_data : list kline) : list kline :=
  sort_values all_data.



(** Two sorts that both meet the documented contract; neither is the
    library's own algorithm.  They mark the two ends of what a conforming
    sort may do with ties.  Rows are inserted from the last one to the
    first: [insert_before] puts a row in front of the rows with the same
    key, which all came later in the input, and [insert_after] puts it
    behind them. *)
Fixpoint insert_after (k : kline) (l : list kline) : list kline :=
  match l with
  | [] => [k]
  | h :: t =>
      if k_open_time k <? k_open_time h then k :: h :: t
      else h :: insert_after k t
  end.

Fixpoint insert_before (k : kline) (l : list kline) : list kline :=
  match l with
  | [] => [k]
  | h :: t =>
      if k_open_time k <=? k_open_time h then k :: h :: t
      else h :: insert_before k t
  end.

Definition sort_ties_kept (l : list kline) : list kline :=
  fold_right insert_before [] l.

Definition sort_ties_reversed (l : list kline) : list kline :=
  fold_right insert_after [] l.

End Normalizer.

(** ** Volatility estimator (lines 86-98, 103-108) *)

Module Estimator.

Local Open Scope R_scope.

(** A binary64 value. *)
Inductive float64 : Type :=
| Finite (x : R)
| Infinite (negative : bool)
| NaN.

(** A float column of the frame. *)
Definition column : Type := list float64.

(** A column whose cells are finite numbers or NaN: the rolling column and
    what is read from it. *)
Definition series : Type := list (option R).

Definition of_floats (l : list R) : column := map Finite l.

(** [Series.shift(1)]: same length, NaN in front, last value dropped. *)
Definition shift1 (s : column) : column :=
  match s with
  | [] => []
  | _ :: _ => NaN :: removelast s
  end.

(** The least magnitude that rounds to an infinity, and the greatest that
    rounds to zero (round to nearest, ties to even). *)
Definition overflow_threshold : R := IZR (2 ^ 1024 - 2 ^ 970).
Definition underflow_threshold : R := / IZR (2 ^ 1075).

Definition is_negative (x : R) : bool :=
  if Rlt_dec x 0 then true else false.

(** The exact result [r] of an operation as binary64 holds it. *)
Definition rounded (r : R) : float64 :=
  if Rlt_dec (Rabs r) overflow_threshold then
    if Rle_dec (Rabs r) underflow_threshold then Finite 0 else Finite r
  else Infinite (is_negative r).

(** Float division on one cell, as numpy does it: no exception, an
    infinity or NaN for a zero divisor. *)
Definition fdiv (a b : float64) : float64 :=
  match a, b with
  | NaN, _ => NaN
  | _, NaN => NaN
  | Finite x, Finite y =>
      if Req_dec_T y 0 then
        if Req_dec_T x 0 then NaN else Infinite (is_negative x)
      else rounded (x / y)
  | Finite _, Infinite _ => Finite 0
  | Infinite s, Finite y => Infinite (xorb s (is_negative y))
  | Infinite _, Infinite _ => NaN
  end.

(** [np.log] on one cell. *)
Definition flog (a : float64) : float64 :=
  match a with
  | Finite x =>
      if Rlt_dec 0 x then Finite (ln x)
      else if Req_dec_T x 0 then Infinite true
      else NaN
  | Infinite false => Infinite false
  | Infinite true => NaN
  | NaN => NaN
  end.

Definition series_div (a b : column) : column :=
  map (fun p => fdiv (fst p) (snd p)) (combine a b).

Definition np_log (s : column) : column := map flog s.

(** Line 86. *)
Definition returns_of (closes : list R) : column :=
  np_log (series_div (of_floats closes) (shift1 (of_floats closes))).

(** Lines 88-90. *)
Definition minutes_per_interval : nat := 5.
Definition intervals_per_hour : nat := 60 / minutes_per_interval.
Definition window_size : nat := intervals_per_hour.

(** The finite cells of a float column, in order. *)
Fixpoint finite_cells (s : column) : list R :=
  match s with
  | [] => []
  | Finite x :: s' => x :: finite_cells s'
  | _ :: s' => finite_cells s'
  end.

Definition has_infinity (s : column) : bool :=
  existsb (fun c => match c with Infinite _ => true | _ => false end) s.

(** The non-NaN cells of a series, in order. *)
Fixpoint observations (s : series) : list R :=
  match s with
  | [] => []
  | Some x :: s' => x :: observations s'
  | None :: s' => observations s'
  end.

Definition Rsum (xs : list R) : R := fold_right Rplus 0 xs.

Definition mean (xs : list R) : R := Rsum xs / INR (length xs).

Definition sum_sq_dev (xs : list R) : R :=
  Rsum (map (fun x => (x - mean xs) * (x - mean xs)) xs).

(** Standard deviation with pandas' default [ddof=1]; NaN when there are
    not more observations than [ddof]. *)
Definition std_ddof1 (xs : list R) : option R :=
  if (length xs <=? 1)%nat then None
  else Some (sqrt (sum_sq_dev xs / (INR (length xs) - 1))).

(** [Series.std()]: NaN cells are skipped; an infinity among the cells
    makes the result NaN. *)
Definition series_std (s : column) : option R :=
  if has_infinity s then None else std_ddof1 (finite_cells s).

(** The cells a window of [w] rows ending at row [i] covers. *)
Definition window (w i : nat) (s : column) : column :=
  skipn (S i - w) (firstn (S i) s).

(** [Series.rolling(w).std()]: [min_periods] defaults to [w], and the
    rolling code reads an infinity as NaN, so a row gets a value only when
    its window holds [w] finite cells. *)
Definition rolling_std (w : nat) (s : column) : series :=
  map (fun i =>
         let obs := finite_cells (window w i s) in
         if (w <=? length obs)%nat then std_ddof1 obs else None)
      (seq 0 (length s)).

(** [* np.sqrt(intervals_per_hour) * 10000] on one cell. *)
Definition to_hourly_bps (v : option R) : option R :=
  option_map (fun x => x * sqrt (INR intervals_per_hour) * 10000) v.

(** Lines 92-96: the column [vol_1h_bps]. *)
Definition vol_1h_bps (closes : list R) : series :=
  map to_hourly_bps (rolling_std window_size (returns_of closes)).

(** Line 98. *)
Definition overall_vol (closes : list R) : option R :=
  to_hourly_bps (series_std (returns_of closes)).

(** [Series.max()] and [Series.min()]: NaN cells are skipped; NaN when no
    cell is left. *)
Definition series_max (s : series) : option R :=
  match observations s with
  | [] => None
  | x :: xs => Some (fold_left Rmax xs x)
  end.

Definition series_min (s : series) : option R :=
  match observations s with
  | [] => None
  | x :: xs => Some (fold_left Rmin xs x)
  end.

(** [Series.iloc[-1]] on a non-empty column. *)
Definition iloc_last (s : series) : option R := last s None.

(** [Series.fillna(0).tolist()]. *)
Definition fillna0 (s : series) : list R :=
  map (fun c => match c with Some x => x | None => 0 end) s.

End Estimator.

(** ** The endpoint (lines 36-114) *)

Module Endpoint.

Import Fetcher Normalizer Estimator.

(** The response model (lines 22-30).  A [float] field may hold NaN. *)
Record VolatilityResponse : Type := mk_response {
  symbol : string;
  average_vol : option R;
  max_vol : option R;
  min_vol : option R;
  current_vol : option R;
  timestamps : list string;
  rolling_vols : list R;
  prices : list R
}.

(** How the handler ends: it returns the model (which the framework then
    has to render; a model holding NaN cannot be rendered as JSON), or
    raises an [HTTPException] with a status and a detail. *)
Inductive http_response : Type :=
| Ok200 (body : VolatilityResponse)
| HttpError (status : Z) (detail : string).

Definition status_of (r : http_response) : Z :=
  match r with
  | Ok200 _ => 200
  | HttpError s _ => s
  end.

Section Handler.

Variable exchange : nat -> klines_params -> reply.
Variable sort_values : list kline -> list kline.
(** [pd.to_datetime(ms, unit='ms').isoformat()]. *)
Variable isoformat : Z -> string.
(** [str(e)] for an [HTTPException]. *)
Variable http_exception_str : Z -> string -> string.

(** Lines 73-109, from the accumulated rows to the response model. *)
Definition respond (symbol : string) (all_data : list kline)
  : VolatilityResponse :=
  let df := normalize sort_values all_data in
  let closes := map k_close df in
  let vol := vol_1h_bps closes in
  mk_response symbol
    (overall_vol closes)
    (series_max vol)
    (series_min vol)
    (iloc_last vol)
    (map (fun k => isoformat (k_open_time k)) df)
    (fillna0 vol)
    closes.

(** The body of the [try] block (lines 43-109), for pages of well-formed
    klines: a failed request and the 404 of line 71 are the exceptions it
    can raise.  (A page that is not a list of 12-field rows of numbers, or
    a time outside what [datetime] and [pd.to_datetime] hold, raises
    another exception, which [except Exception] answers with a 500 as
    well; these have no path here.) *)
Definition try_block (symbol interval : string) (lookback_hours now_ms : Z)
    (fuel : nat) : option (py_exception + VolatilityResponse) :=
  match fetch exchange symbol interval lookback_hours now_ms fuel with
  | None => None
  | Some (inl e) => Some (inl e)
  | Some (inr []) =>
      Some (inl (HTTPException 404 ("No data found for " ++ symbol)%string))
  | Some (inr all_data) => Some (inr (respond symbol all_data))
  end.

(** The two [except] clauses (lines 111-114), tried in order.  The second
    one, [except Exception], takes every exception the first one does not,
    the [HTTPException] of line 71 included.  Each raises a fresh
    [HTTPException] with status 500, which the framework renders. *)
Definition except_clauses (e : py_exception) : http_response :=
  match e with
  | RequestException msg =>
      HttpError 500 ("Error fetching data from Binance: " ++ msg)%string
  | HTTPException status detail =>
      HttpError 500 (http_exception_str status detail)
  end.

Definition get_volatility (symbol interval : string)
    (lookback_hours now_ms : Z) (fuel : nat) : option http_response :=
  match try_block symbol interval lookback_hours now_ms fuel with
  | None => None
  | Some (inl e) => Some (except_clauses e)
  | Some (inr body) => Some (Ok200 body)
  end.

End Handler.

End Endpoint.

(** ** Reference notions used to state the properties *)

Module Reference.

Local Open Scope Z_scope.

(** The length of one candle for the interval strings the exchange accepts
    (the calendar month "1M" has no fixed length). *)
Definition interval_duration_ms (interval : string) : option Z :=
  let minute := 60000 in
  let hour := 60 * minute in
  let day := 24 * hour in
  if String.eqb interval "1m" then Some minute
  else if String.eqb interval "3m" then Some (3 * minute)
  else if String.eqb interval "5m" then Some (5 * minute)
  else if String.eqb interval "15m" then Some (15 * minute)
  else if String.eqb interval "30m" then Some (30 * minute)
  else if String.eqb interval "1h" then Some hour
  else if String.eqb interval "2h" then Some (2 * hour)
  else if String.eqb interval "4h" then Some (4 * hour)
  else if String.eqb interval "6h" then Some (6 * hour)
  else if String.eqb interval "8h" then Some (8 * hour)
  else if String.eqb interval "12h" then Some (12 * hour)
  else if String.eqb interval "1d" then Some day
  else if String.eqb interval "3d" then Some (3 * day)
  else if String.eqb interval "1w" then Some (7 * day)
  else None.

(** A bound on the number of passes through the loop when every page moves
    [current_start_ms] forward by at least 300000. *)
Definition passes_bound (end_ms cur : Z) : nat :=
  Z.to_nat ((end_ms - cur + 299999) / 300000).

(** Every non-empty page ends at or after the [startTime] it was asked
    for. *)
Definition pages_reach_start (exchange : nat -> klines_params -> reply)
  : Prop :=
  forall n q data,
    exchange n q = Page data -> data <> [] ->
    p_startTime q <= k_open_time (Fetcher.last_kline data).

Local Open Scope R_scope.

(** The log returns of a list of closes, without the missing first entry:
    entry [i] is [ln (close[i+1] / close[i])]. *)
Definition log_returns (closes : list R) : list R :=
  map (fun p => ln (snd p / fst p)) (combine closes (tl closes)).

(** The rolling column with its NaN cells written as 0 before the
    minimum and the maximum are taken. *)
Definition zero_filled_min (s : Estimator.series) : option R :=
  match Estimator.fillna0 s with
  | [] => None
  | x :: xs => Some (fold_left Rmin xs x)
  end.

Definition zero_filled_max (s : Estimator.series) : option R :=
  match Estimator.fillna0 s with
  | [] => None
  | x :: xs => Some (fold_left Rmax xs x)
  end.

Definition positive_prices (closes : list R) : Prop :=
  Forall (fun c => 0 < c) closes.

(** A quotient binary64 holds as a finite number other than zero. *)
Definition representable (r : R) : Prop :=
  Estimator.underflow_threshold < Rabs r < Estimator.overflow_threshold.

(** Every close divided by the close before it is representable. *)
Definition ratios_in_range (closes : list R) : Prop :=
  Forall (fun p => representable (snd p / fst p))
         (combine closes (tl closes)).






(** A clock reading between 1970 and 2100 and a lookback of at most a
    million hours either way: the [datetime] arithmetic of lines 43-47
    stays well inside the years it can hold. *)
Definition plain_lookback (now_ms lookback_hours : Z) : Prop :=
  (0 <= now_ms <= 4102444800000)%Z /\
  (-1000000 <= lookback_hours <= 1000000)%Z.

(** Every kline the exchange serves opens between 1970 and 2100, a time
    [pd.to_datetime] can hold. *)
Definition plain_pages (exchange : nat -> klines_params -> reply) : Prop :=
  forall n q data k,
    exchange n q = Page data -> In k data ->
    (0 <= k_open_time k <= 4102444800000)%Z.

End Reference.

(** ** Concrete exchanges and inputs *)

Module Scenario.

Local Open Scope Z_scope.

Definition flat (t : Z) (price : R) : kline :=
  mk_kline t price price price price.

(** An exchange with no klines for the symbol. *)
Definition no_data (n : nat) (q : klines_params) : reply := Page [].

(** Five-minute klines starting at [t], one per close. *)
Fixpoint book_of (t : Z) (closes : list R) : list kline :=
  match closes with
  | [] => []
  | c :: cs => flat t c :: book_of (t + 300000) cs
  end.

(** Twelve closes, one hour of five-minute klines. *)
Definition hour_of_closes : list R :=
  [100; 101; 100; 102; 101; 103; 102; 104; 103; 105; 104; 106]%R.

(** Thirteen closes: twelve at 1, then 2. *)
Definition one_jump : list R := (repeat 1 12 ++ [2])%R.

(** The klines an exchange holds, opening on five-minute marks: the twelve
    of the hour before 1700000000000, and thirteen that end with the same
    kline. *)
Definition one_hour : list kline := book_of 1699996500000 hour_of_closes.

Definition jump_book : list kline := book_of 1699996200000 one_jump.

(** An exchange that serves the klines of [book] that open within the
    requested range. *)
Definition serves (book : list kline) (n : nat) (q : klines_params) : reply :=
  Page (filter (fun k => (p_startTime q <=? k_open_time k)
                         && (k_open_time k <=? p_endTime q)) book).



(** Stand-ins for the two text renderings, which no property depends on. *)
Definition no_text (ms : Z) : string := EmptyString.

Definition detail_only (status : Z) (detail : string) : string := detail.

(** An exchange whose only kline opens one hour before [startTime]. *)
Definition stale (n : nat) (q : klines_params) : reply :=
  Page [flat (p_startTime q - 3600000) 100].

(** An exchange that answers with one hourly kline opening at
    [startTime]. *)
Definition hourly (n : nat) (q : klines_params) : reply :=
  Page [flat (p_startTime q) 100].

(** A one-hour lookback at 1700000000000: one page of twelve klines. *)
Definition hour_request : option Endpoint.http_response :=
  Endpoint.get_volatility (serves one_hour) Normalizer.sort_ties_kept no_text
    detail_only "btcusdt" "5m" 1 1700000000000 1.

Definition hour_body : Endpoint.VolatilityResponse :=
  Endpoint.respond Normalizer.sort_ties_kept no_text "btcusdt" one_hour.

(** A two-hour lookback over thirteen klines. *)
Definition jump_request : option Endpoint.http_response :=
  Endpoint.get_volatility (serves jump_book) Normalizer.sort_ties_kept no_text
    detail_only "btcusdt" "5m" 2 1700000000000 1.

Definition jump_body : Endpoint.VolatilityResponse :=
  Endpoint.respond Normalizer.sort_ties_kept no_text "btcusdt" jump_book.

End Scenario.

(** ** Ghost trace of the outbound requests *)

Module Trace.

Import Fetcher.
Local Open Scope Z_scope.

Section Requests.

Variable exchange : nat -> klines_params -> reply.
Variables (symbol interval : string) (end_ms : Z).

(** The [params] dictionaries (lines 54-60) of the requests the loop
    sends, in order, while the fuel lasts. *)
Fixpoint requests_made (fuel : nat) (st : loop_state) : list klines_params :=
  if current_start_ms st <? end_ms then
    match fuel with
    | O => []
    | S fuel' =>
        params_of symbol interval end_ms st ::
        match loop_body exchange symbol interval end_ms st with
        | Continue st' => requests_made fuel' st'
        | Break => []
        | Raise _ => []
        end
    end
  else [].

End Requests.

End Trace.

(** ** An exchange that serves a book of klines page by page *)

Module Market.

Local Open Scope Z_scope.

(** The kline opens within the requested range, both ends included. *)
Definition in_range (q : klines_params) (k : kline) : bool :=
  (p_startTime q <=? k_open_time k) && (k_open_time k <=? p_endTime q).

(** The exchange answers with the klines of its book that open within the
    range, oldest first, and never more than [limit] of them. *)
Definition serves_capped (book : list kline) (n : nat) (q : klines_params)
  : reply :=
  Page (firstn (Z.to_nat (p_limit q)) (filter (in_range q) book)).

(** The klines of the book that open at or after [t]. *)
Definition opening_from (t : Z) (book : list kline) : list kline :=
  filter (fun k => t <=? k_open_time k) book.

(** The book is in time order, with at least five minutes between any two
    klines. *)
Definition five_minutes_apart (book : list kline) : Prop :=
  StronglySorted (fun a b => k_open_time a + 300000 <= k_open_time b) book.

(** Every page is in strictly ascending time order and starts at or after
    the [startTime] it was asked for. *)
Definition time_lt (a b : kline) : Prop := k_open_time a < k_open_time b.

Definition pages_ascend (exchange : nat -> klines_params -> reply) : Prop :=
  forall n q data,
    exchange n q = Page data ->
    StronglySorted time_lt data /\
    Forall (fun k => p_startTime q <= k_open_time k) data.

End Market.

(** * Properties of the range fetcher *)

Section FetcherFacts.

Import Fetcher Reference.
Local Open Scope Z_scope.

Variable exchange : nat -> klines_params -> reply.
Variables (symbol interval : string) (end_ms : Z).

Let loop := fetch_loop exchange symbol interval end_ms.
Let body := loop_body exchange symbol interval end_ms.
Let query := params_of symbol interval end_ms.

Lemma loop_exit_at_end (fuel : nat) (st : loop_state) :
  end_ms <= current_start_ms st -> loop fuel st = Some (inr (all_data st)).
Proof.
  intros Hle. subst loop.
  assert (Hguard : (current_start_ms st <? end_ms) = false)
    by (apply Z.ltb_ge; exact Hle).
  destruct fuel; simpl; rewrite Hguard; reflexivity.
Qed.

Lemma loop_pass (fuel : nat) (st : loop_state) :
  current_start_ms st < end_ms ->
  loop (S fuel) st =
    match body st with
    | Continue st' => loop fuel st'
    | Break => Some (inr (all_data st))
    | Raise e => Some (inl e)
    end.
Proof.
  intros Hlt. subst loop body. simpl.
  apply Z.ltb_lt in Hlt. rewrite Hlt. reflexivity.
Qed.

Lemma body_continue_inv (st st' : loop_state) :
  body st = Continue st' ->
  exists data,
    exchange (calls st) (query st) = Page data /\ data <> [] /\
    st' = mk_state (S (calls st))
                   (k_open_time (last_kline data) + 300000)
                   (all_data st ++ data).
Proof.
  subst body query. unfold loop_body.
  destruct (exchange (calls st) (params_of symbol interval end_ms st))
    as [[|k data]|msg]; intros H; try discriminate.
  exists (k :: data). repeat split; [discriminate | congruence].
Qed.

Lemma body_moves_forward (st st' : loop_state) :
  pages_reach_start exchange ->
  body st = Continue st' ->
  current_start_ms st + 300000 <= current_start_ms st'.
Proof.
  intros Hreach Hbody.
  destruct (body_continue_inv _ Hbody) as (data & Hreply & Hne & ->).
  specialize (Hreach _ _ _ Hreply Hne). simpl in *. lia.
Qed.

Lemma loop_fuel_suffices (fuel : nat) :
  pages_reach_start exchange ->
  forall st,
    end_ms - current_start_ms st <= 300000 * Z.of_nat fuel ->
    loop fuel st <> None.
Proof.
  intros Hreach. induction fuel as [|fuel IH]; intros st Hgap.
  - rewrite loop_exit_at_end by lia. discriminate.
  - destruct (Z_lt_le_dec (current_start_ms st) end_ms) as [Hlt|Hge].
    + rewrite (loop_pass _ _ Hlt).
      destruct (body st) as [st'| |e] eqn:Hbody; try discriminate.
      apply IH. pose proof (body_moves_forward _ Hreach Hbody). lia.
    + rewrite loop_exit_at_end by lia. discriminate.
Qed.

Lemma passes_bound_covers (cur : Z) :
  end_ms - cur <= 300000 * Z.of_nat (passes_bound end_ms cur).
Proof.
  unfold passes_bound.
  pose proof (Z.div_mod (end_ms - cur + 299999) 300000 ltac:(lia)) as Hdm.
  pose proof (Z.mod_pos_bound (end_ms - cur + 299999) 300000 ltac:(lia)).
  destruct (Z_lt_le_dec ((end_ms - cur + 299999) / 300000) 0) as [Hneg|Hpos].
  - assert (Hz : Z.of_nat (Z.to_nat ((end_ms - cur + 299999) / 300000)) = 0)
      by (destruct ((end_ms - cur + 299999) / 300000); simpl; lia).
    rewrite Hz. lia.
  - rewrite Z2Nat.id by lia. lia.
Qed.

Lemma loop_more_fuel (fuel : nat) :
  forall st r, loop fuel st = Some r -> loop (S fuel) st = Some r.
Proof.
  induction fuel as [|fuel IH]; intros st r Hrun.
  - destruct (Z_lt_le_dec (current_start_ms st) end_ms) as [Hlt|Hge].
    + exfalso. subst loop. simpl in Hrun. apply Z.ltb_lt in Hlt.
      rewrite Hlt in Hrun. discriminate.
    + rewrite loop_exit_at_end in Hrun by lia.
      rewrite loop_exit_at_end by lia. exact Hrun.
  - destruct (Z_lt_le_dec (current_start_ms st) end_ms) as [Hlt|Hge].
    + rewrite (loop_pass _ _ Hlt) in Hrun.
      rewrite (loop_pass _ _ Hlt).
      destruct (body st) as [st'| |e]; auto.
    + rewrite loop_exit_at_end in Hrun by lia.
      rewrite loop_exit_at_end by lia. exact Hrun.
Qed.

(** The accumulated rows are the rows held on entry followed by the pages
    appended, in order. *)
Lemma loop_result_is_pages (fuel : nat) :
  forall st rows,
    loop fuel st = Some (inr rows) ->
    rows = all_data st
           ++ concat (fetched_pages exchange symbol interval end_ms fuel st).
Proof.
  induction fuel as [|fuel IH]; intros st rows Hrun.
  - subst loop. simpl in *.
    destruct (current_start_ms st <? end_ms); [discriminate|].
    inversion Hrun. now rewrite app_nil_r.
  - destruct (Z_lt_le_dec (current_start_ms st) end_ms) as [Hlt|Hge].
    + rewrite (loop_pass _ _ Hlt) in Hrun. subst body. simpl.
      apply Z.ltb_lt in Hlt. rewrite Hlt. unfold loop_body in Hrun.
      destruct (exchange (calls st) (params_of symbol interval end_ms st))
        as [[|k data]|msg].
      * inversion Hrun. now rewrite app_nil_r.
      * apply IH in Hrun. simpl in *. now rewrite <- app_assoc in Hrun.
      * discriminate.
    + rewrite loop_exit_at_end in Hrun by lia.
      simpl. apply Z.ltb_ge in Hge. rewrite Hge.
      inversion Hrun. now rewrite app_nil_r.
Qed.

End FetcherFacts.

Section FetcherRuns.

Import Fetcher Reference.
Local Open Scope Z_scope.

Variable exchange : nat -> klines_params -> reply.
Variables (symbol interval : string) (end_ms : Z).

Let loop := fetch_loop exchange symbol interval end_ms.

Lemma loop_extra_fuel (extra fuel : nat) (st : loop_state)
    (r : py_exception + list kline) :
  loop fuel st = Some r -> loop (extra + fuel) st = Some r.
Proof.
  intros Hrun. induction extra as [|extra IH]; [exact Hrun|].
  simpl. now apply loop_more_fuel.
Qed.

Lemma loop_result_within_bound (st : loop_state) :
  pages_reach_start exchange ->
  exists r, forall fuel,
    (passes_bound end_ms (current_start_ms st) <= fuel)%nat ->
    loop fuel st = Some r.
Proof.
  intros Hreach.
  pose proof (@loop_fuel_suffices exchange symbol interval end_ms
                (passes_bound end_ms (current_start_ms st)) Hreach st
                (passes_bound_covers end_ms (current_start_ms st))) as Hsome.
  fold loop in Hsome.
  destruct (loop (passes_bound end_ms (current_start_ms st)) st)
    as [r|] eqn:Hrun; [|congruence].
  exists r. intros fuel Hfuel.
  replace fuel
    with ((fuel - passes_bound end_ms (current_start_ms st))
          + passes_bound end_ms (current_start_ms st))%nat by lia.
  now apply loop_extra_fuel.
Qed.

End FetcherRuns.

(** Against an exchange whose page always ends an hour before the
    requested start, the loop never leaves: no amount of fuel is enough. *)
Lemma stale_pages_never_finish (symbol interval : string) (end_ms : Z)
    (fuel : nat) :
  forall st,
    (Fetcher.current_start_ms st < end_ms)%Z ->
    Fetcher.fetch_loop Scenario.stale symbol interval end_ms fuel st = None.
Proof.
  induction fuel as [|fuel IH]; intros st Hlt.
  - simpl. apply Z.ltb_lt in Hlt. now rewrite Hlt.
  - rewrite loop_pass by exact Hlt.
    unfold Fetcher.loop_body, Scenario.stale. apply IH. simpl. lia.
Qed.

Lemma hourly_pages_reach_start : Reference.pages_reach_start Scenario.hourly.
Proof.
  intros n q data Hreply _. unfold Scenario.hourly in Hreply.
  inversion Hreply. simpl. lia.
Qed.

(** * Properties of the estimator *)

Section RangeFacts.

Import Estimator Reference.
Local Open Scope R_scope.

Lemma overflow_threshold_large : 4 < overflow_threshold.
Proof.
  unfold overflow_threshold. apply IZR_lt. vm_compute. reflexivity.
Qed.

Lemma underflow_threshold_small : 0 < underflow_threshold < / 4.
Proof.
  unfold underflow_threshold.
  assert (Hbig : 4 < IZR (2 ^ 1075))
    by (apply IZR_lt; vm_compute; reflexivity).
  split.
  - apply Rinv_0_lt_compat. lra.
  - apply Rinv_lt_contravar; [|exact Hbig].
    apply Rmult_lt_0_compat; lra.
Qed.

(** Quotients between a quarter and four are far inside the range. *)
Lemma moderate_representable (r : R) : / 4 <= r <= 4 -> representable r.
Proof.
  intros [Hlo Hhi]. unfold representable.
  pose proof overflow_threshold_large. pose proof underflow_threshold_small.
  rewrite Rabs_pos_eq by lra. lra.
Qed.

Lemma rounded_representable (r : R) : representable r -> rounded r = Finite r.
Proof.
  intros [Hlo Hhi]. unfold rounded.
  destruct (Rlt_dec (Rabs r) overflow_threshold); [|contradiction].
  destruct (Rle_dec (Rabs r) underflow_threshold); [lra | reflexivity].
Qed.

Lemma fdiv_finite (x y : R) :
  y <> 0 -> representable (x / y) -> fdiv (Finite x) (Finite y) = Finite (x / y).
Proof.
  intros Hy Hr. unfold fdiv.
  destruct (Req_dec_T y 0); [contradiction|]. now apply rounded_representable.
Qed.

Lemma flog_finite (x : R) : 0 < x -> flog (Finite x) = Finite (ln x).
Proof.
  intros Hx. unfold flog. destruct (Rlt_dec 0 x); [reflexivity|contradiction].
Qed.

Lemma ratio_positive (x y : R) : 0 < x -> 0 < y -> 0 < y / x.
Proof. intros Hx Hy. now apply Rdiv_lt_0_compat. Qed.

Lemma ratios_in_range_cons (c d : R) (ds : list R) :
  ratios_in_range (c :: d :: ds) <->
  representable (d / c) /\ ratios_in_range (d :: ds).
Proof.
  unfold ratios_in_range. cbn [tl combine]. split.
  - intros H. inversion H; subst. auto.
  - intros [H1 H2]. constructor; assumption.
Qed.

End RangeFacts.

Section ReturnsFacts.

Import Estimator Reference.
Local Open Scope R_scope.

Lemma returns_of_length (closes : list R) :
  length (returns_of closes) = length closes.
Proof.
  unfold returns_of, np_log, series_div, of_floats, shift1.
  rewrite !length_map, length_combine, length_map.
  destruct closes as [|c cs]; [reflexivity|].
  cbn [map length]. rewrite removelast_firstn_len, length_firstn.
  cbn [length]. rewrite length_map. lia.
Qed.

(** Row 0 has no previous close: its return is NaN, whatever the prices. *)
Lemma returns_of_head (c : R) (cs : list R) :
  exists rest, returns_of (c :: cs) = NaN :: rest.
Proof.
  unfold returns_of, np_log, series_div, of_floats, shift1.
  cbn [map combine fst snd fdiv flog]. eexists. reflexivity.
Qed.

Lemma shifted_ratios (c : R) (cs : list R) :
  positive_prices (c :: cs) -> ratios_in_range (c :: cs) ->
  map flog
      (map (fun p => fdiv (fst p) (snd p))
           (combine (map Finite cs) (removelast (map Finite (c :: cs)))))
  = map Finite (log_returns (c :: cs)).
Proof.
  revert c. induction cs as [|d ds IH]; intros c Hpos Hrange; [reflexivity|].
  inversion Hpos as [|? ? Hc Hrest]; subst.
  inversion Hrest as [|? ? Hd _]; subst.
  apply ratios_in_range_cons in Hrange as [Hratio Hrange].
  change (removelast (map Finite (c :: d :: ds)))
    with (Finite c :: removelast (map Finite (d :: ds))).
  cbn [map combine fst snd].
  rewrite fdiv_finite by (try lra; exact Hratio).
  rewrite flog_finite by (now apply ratio_positive).
  change (Finite d :: map Finite ds) with (map Finite (d :: ds)).
  rewrite (IH d Hrest Hrange). reflexivity.
Qed.

(** With positive prices whose quotients are in range, the return column
    is one NaN followed by the log returns. *)
Lemma returns_of_positive (c : R) (cs : list R) :
  positive_prices (c :: cs) -> ratios_in_range (c :: cs) ->
  returns_of (c :: cs) = NaN :: map Finite (log_returns (c :: cs)).
Proof.
  intros Hpos Hrange. unfold returns_of, np_log, series_div, of_floats, shift1.
  cbn [map combine fst snd fdiv flog].
  f_equal. now apply shifted_ratios.
Qed.

Lemma log_returns_length (closes : list R) :
  length (log_returns closes) = (length closes - 1)%nat.
Proof.
  unfold log_returns. rewrite length_map, length_combine.
  destruct closes as [|c cs]; cbn [tl length]; lia.
Qed.

Lemma log_returns_nth (closes : list R) :
  forall i, (S i < length closes)%nat ->
  nth_error (log_returns closes) i
  = Some (ln (nth (S i) closes 0 / nth i closes 0)).
Proof.
  induction closes as [|c cs IH]; intros i Hi; [simpl in Hi; lia|].
  destruct cs as [|d ds]; [simpl in Hi; lia|].
  destruct i as [|i]; [reflexivity|].
  change (log_returns (c :: d :: ds))
    with (ln (d / c) :: log_returns (d :: ds)).
  cbn [nth_error]. rewrite IH by (simpl in *; lia). reflexivity.
Qed.

Lemma finite_cells_finite (xs : list R) : finite_cells (map Finite xs) = xs.
Proof. induction xs; simpl; congruence. Qed.

Lemma finite_cells_length_le (s : column) :
  (length (finite_cells s) <= length s)%nat.
Proof. induction s as [|[x|n|] s IH]; simpl; lia. Qed.

Lemma no_infinity_among_finite (xs : list R) :
  has_infinity (map Finite xs) = false.
Proof. induction xs; simpl; auto. Qed.

End ReturnsFacts.

Section RollingFacts.

Import Estimator Reference.
Local Open Scope R_scope.

Lemma window_size_is_12 : window_size = 12%nat.
Proof. reflexivity. Qed.

Lemma rolling_std_length (w : nat) (s : column) :
  length (rolling_std w s) = length s.
Proof. unfold rolling_std. now rewrite length_map, length_seq. Qed.

Lemma rolling_std_nth (w : nat) (s : column) (i : nat) :
  (i < length s)%nat ->
  nth_error (rolling_std w s) i
  = Some (if (w <=? length (finite_cells (window w i s)))%nat
          then std_ddof1 (finite_cells (window w i s)) else None).
Proof.
  intros Hi. unfold rolling_std.
  rewrite nth_error_map, nth_error_seq.
  apply Nat.ltb_lt in Hi. rewrite Hi. reflexivity.
Qed.

(** A window that reaches back to the NaN of row 0 is short of
    observations. *)
Lemma early_window_is_short (w i : nat) (s : column) :
  (i < w)%nat ->
  (length (finite_cells (window w i (NaN :: s))) < w)%nat.
Proof.
  intros Hi. unfold window.
  replace (S i - w)%nat with 0%nat by lia.
  cbn [skipn firstn finite_cells].
  pose proof (finite_cells_length_le (firstn i s)) as Hobs.
  pose proof (firstn_le_length i s). lia.
Qed.

Lemma window_behind_nan (w i : nat) (rs : list R) :
  (1 <= w)%nat ->
  finite_cells (window w i (NaN :: map Finite rs))
  = skipn (i - w) (firstn i rs).
Proof.
  intros Hw. unfold window. cbn [firstn].
  destruct (le_lt_dec w i) as [Hge|Hlt].
  - replace (S i - w)%nat with (S (i - w)) by lia.
    cbn [skipn]. rewrite firstn_map, skipn_map.
    apply finite_cells_finite.
  - replace (S i - w)%nat with 0%nat by lia.
    replace (i - w)%nat with 0%nat by lia.
    cbn [skipn finite_cells]. rewrite firstn_map.
    apply finite_cells_finite.
Qed.

Lemma Rsum_nonneg (xs : list R) :
  Forall (fun x => 0 <= x) xs -> 0 <= Rsum xs.
Proof.
  induction 1 as [|x xs Hx _ IH]; simpl; lra.
Qed.

Lemma sum_sq_dev_nonneg (xs : list R) : 0 <= sum_sq_dev xs.
Proof.
  unfold sum_sq_dev. apply Rsum_nonneg.
  apply Forall_forall. intros y Hy.
  apply in_map_iff in Hy as (x & <- & _).
  generalize (x - mean xs). intros d. nra.
Qed.

Lemma std_ddof1_nonneg (xs : list R) (v : R) :
  std_ddof1 xs = Some v -> 0 <= v.
Proof.
  unfold std_ddof1. destruct (length xs <=? 1)%nat; [discriminate|].
  intros [= <-]. apply sqrt_pos.
Qed.

Lemma std_ddof1_defined (xs : list R) :
  (2 <= length xs)%nat -> exists v, std_ddof1 xs = Some v.
Proof.
  intros Hlen. unfold std_ddof1.
  destruct (Nat.leb_spec (length xs) 1); [lia|]. eauto.
Qed.

Lemma to_hourly_bps_nonneg (c : option R) (v : R) :
  (forall x, c = Some x -> 0 <= x) ->
  to_hourly_bps c = Some v -> 0 <= v.
Proof.
  intros Hc. destruct c as [x|]; [|discriminate].
  intros [= <-]. specialize (Hc x eq_refl).
  pose proof (sqrt_pos (INR intervals_per_hour)) as Hroot.
  apply Rmult_le_pos; [apply Rmult_le_pos; assumption | lra].
Qed.

Lemma vol_1h_bps_length (closes : list R) :
  length (vol_1h_bps closes) = length closes.
Proof.
  unfold vol_1h_bps.
  now rewrite length_map, rolling_std_length, returns_of_length.
Qed.

Lemma vol_1h_bps_nth (closes : list R) (i : nat) :
  (i < length closes)%nat ->
  nth_error (vol_1h_bps closes) i
  = Some (to_hourly_bps
            (let obs := finite_cells (window window_size i
                                        (returns_of closes)) in
             if (window_size <=? length obs)%nat
             then std_ddof1 obs else None)).
Proof.
  intros Hi. unfold vol_1h_bps.
  rewrite nth_error_map, rolling_std_nth
    by (now rewrite returns_of_length).
  reflexivity.
Qed.

(** The first [window_size] rows have no rolling value, whatever the
    prices. *)
Lemma vol_1h_bps_early (closes : list R) (i : nat) :
  (i < length closes)%nat -> (i < window_size)%nat ->
  nth_error (vol_1h_bps closes) i = Some None.
Proof.
  intros Hi Hw. rewrite vol_1h_bps_nth by exact Hi.
  destruct closes as [|c cs]; [simpl in Hi; lia|].
  destruct (returns_of_head c cs) as [rest ->].
  pose proof (@early_window_is_short window_size i rest Hw) as Hshort.
  cbv zeta.
  destruct (Nat.leb_spec window_size
              (length (finite_cells (window window_size i (NaN :: rest)))));
    [lia | reflexivity].
Qed.

(** From row [window_size] on, positive prices with quotients in range
    give a rolling value: the deviation of the twelve latest log returns,
    in hourly basis points. *)
Lemma vol_1h_bps_late (closes : list R) (i : nat) :
  positive_prices closes -> ratios_in_range closes ->
  (i < length closes)%nat -> (window_size <= i)%nat ->
  nth_error (vol_1h_bps closes) i
  = Some (to_hourly_bps
            (std_ddof1 (skipn (i - window_size)
                              (firstn i (log_returns closes))))) /\
  length (skipn (i - window_size) (firstn i (log_returns closes)))
  = window_size.
Proof.
  intros Hpos Hrange Hi Hw.
  assert (Hlen : length (skipn (i - window_size)
                           (firstn i (log_returns closes))) = window_size).
  { rewrite length_skipn, length_firstn, log_returns_length. lia. }
  split; [|exact Hlen].
  rewrite vol_1h_bps_nth by exact Hi.
  destruct closes as [|c cs]; [simpl in Hi; lia|].
  rewrite (returns_of_positive Hpos Hrange).
  cbv zeta. rewrite window_behind_nan by (rewrite window_size_is_12; lia).
  rewrite Hlen, Nat.leb_refl. reflexivity.
Qed.

End RollingFacts.

Section ExtremaFacts.

Import Estimator Reference.
Local Open Scope R_scope.

Lemma fold_Rmin_spec (xs : list R) :
  forall x,
    In (fold_left Rmin xs x) (x :: xs) /\
    Forall (fun y => fold_left Rmin xs x <= y) (x :: xs).
Proof.
  induction xs as [|a xs IH]; intros x.
  - simpl. split; [now left|]. constructor; [lra|constructor].
  - cbn [fold_left]. destruct (IH (Rmin x a)) as [Hin Hall].
    inversion Hall as [|? ? Hhead Htail]; subst.
    pose proof (Rmin_l x a). pose proof (Rmin_r x a).
    split.
    + destruct Hin as [Heq|Hin]; [|now right; right].
      rewrite <- Heq. unfold Rmin. destruct (Rle_dec x a); simpl; auto.
    + constructor; [lra|]. constructor; [lra|exact Htail].
Qed.

Lemma fold_Rmax_spec (xs : list R) :
  forall x,
    In (fold_left Rmax xs x) (x :: xs) /\
    Forall (fun y => y <= fold_left Rmax xs x) (x :: xs).
Proof.
  induction xs as [|a xs IH]; intros x.
  - simpl. split; [now left|]. constructor; [lra|constructor].
  - cbn [fold_left]. destruct (IH (Rmax x a)) as [Hin Hall].
    inversion Hall as [|? ? Hhead Htail]; subst.
    pose proof (Rmax_l x a). pose proof (Rmax_r x a).
    split.
    + destruct Hin as [Heq|Hin]; [|now right; right].
      rewrite <- Heq. unfold Rmax. destruct (Rle_dec x a); simpl; auto.
    + constructor; [lra|]. constructor; [lra|exact Htail].
Qed.

Lemma observations_In (s : series) (x : R) :
  In x (observations s) <-> exists i, nth_error s i = Some (Some x).
Proof.
  induction s as [|[y|] s IH]; simpl.
  - split; [tauto|]. intros [[|i] Hi]; discriminate.
  - rewrite IH. split.
    + intros [->|[i Hi]]; [now exists 0%nat | now exists (S i)].
    + intros [[|i] Hi]; simpl in Hi; [left; congruence | right; eauto].
  - rewrite IH. split.
    + intros [i Hi]. now exists (S i).
    + intros [[|i] Hi]; simpl in Hi; [discriminate | eauto].
Qed.

(** [Series.min()] is the least of the defined cells. *)
Lemma series_min_spec (s : series) (lo : R) :
  series_min s = Some lo ->
  (exists i, nth_error s i = Some (Some lo)) /\
  (forall i v, nth_error s i = Some (Some v) -> lo <= v).
Proof.
  unfold series_min. destruct (observations s) as [|x xs] eqn:Hobs;
    [discriminate|].
  intros [= <-]. destruct (fold_Rmin_spec xs x) as [Hin Hall].
  rewrite <- Hobs in Hin, Hall. split.
  - now apply observations_In.
  - intros i v Hi. rewrite Forall_forall in Hall. apply Hall.
    apply observations_In. eauto.
Qed.

(** [Series.max()] is the greatest of the defined cells. *)
Lemma series_max_spec (s : series) (hi : R) :
  series_max s = Some hi ->
  (exists i, nth_error s i = Some (Some hi)) /\
  (forall i v, nth_error s i = Some (Some v) -> v <= hi).
Proof.
  unfold series_max. destruct (observations s) as [|x xs] eqn:Hobs;
    [discriminate|].
  intros [= <-]. destruct (fold_Rmax_spec xs x) as [Hin Hall].
  rewrite <- Hobs in Hin, Hall. split.
  - now apply observations_In.
  - intros i v Hi. rewrite Forall_forall in Hall. apply Hall.
    apply observations_In. eauto.
Qed.

Lemma series_extrema_defined (s : series) (i : nat) (v : R) :
  nth_error s i = Some (Some v) ->
  (exists lo, series_min s = Some lo) /\ (exists hi, series_max s = Some hi).
Proof.
  intros Hi. assert (Hin : In v (observations s))
    by (apply observations_In; eauto).
  unfold series_min, series_max.
  destruct (observations s); [contradiction|]. eauto.
Qed.

Lemma series_extrema_all_nan (s : series) :
  (forall i c, nth_error s i = Some c -> c = None) ->
  series_min s = None /\ series_max s = None.
Proof.
  intros Hnan. unfold series_min, series_max.
  destruct (observations s) as [|x xs] eqn:Hobs; [auto|].
  assert (Hin : In x (observations s)) by (rewrite Hobs; now left).
  apply observations_In in Hin as [i Hi].
  specialize (Hnan _ _ Hi). discriminate.
Qed.

Lemma fillna0_length (s : series) : length (fillna0 s) = length s.
Proof. unfold fillna0. apply length_map. Qed.

Lemma fillna0_nth (s : series) (i : nat) :
  nth_error (fillna0 s) i
  = option_map (fun c => match c with Some x => x | None => 0 end)
               (nth_error s i).
Proof. unfold fillna0. apply nth_error_map. Qed.

Lemma iloc_last_nth (s : series) :
  s <> [] -> nth_error s (length s - 1) = Some (iloc_last s).
Proof.
  unfold iloc_last. induction s as [|c [|d s] IH]; intros Hne;
    [contradiction | reflexivity |].
  change (last (c :: d :: s) None) with (last (d :: s) None).
  rewrite <- IH by discriminate.
  cbn [length]. replace (S (S (length s)) - 1)%nat with (S (length s)) by lia.
  cbn [nth_error]. f_equal. lia.
Qed.

End ExtremaFacts.

(** * Properties of the normalizer *)

Section SortFacts.

Import Normalizer.
Local Open Scope Z_scope.


Lemma insert_after_permutes (k : kline) (l : list kline) :
  Permutation (k :: l) (insert_after k l).
Proof.
  induction l as [|h t IH]; simpl; [reflexivity|].
  destruct (k_open_time k <? k_open_time h); [reflexivity|].
  rewrite perm_swap. now constructor.
Qed.

Lemma insert_before_permutes (k : kline) (l : list kline) :
  Permutation (k :: l) (insert_before k l).
Proof.
  induction l as [|h t IH]; simpl; [reflexivity|].
  destruct (k_open_time k <=? k_open_time h); [reflexivity|].
  rewrite perm_swap. now constructor.
Qed.

Lemma insert_after_ascending (k : kline) (l : list kline) :
  StronglySorted time_le l -> StronglySorted time_le (insert_after k l).
Proof.
  induction 1 as [|h t Hsorted IH Hhead]; simpl.
  - repeat constructor.
  - destruct (Z.ltb_spec (k_open_time k) (k_open_time h)) as [Hlt|Hge].
    + constructor; [now constructor|].
      constructor; [unfold time_le; lia|].
      eapply Forall_impl; [|exact Hhead].
      unfold time_le. intros a Ha. lia.
    + constructor; [exact IH|].
      rewrite <- (insert_after_permutes k t).
      constructor; [exact Hge | exact Hhead].
Qed.

Lemma insert_before_ascending (k : kline) (l : list kline) :
  StronglySorted time_le l -> StronglySorted time_le (insert_before k l).
Proof.
  induction 1 as [|h t Hsorted IH Hhead]; simpl.
  - repeat constructor.
  - destruct (Z.leb_spec (k_open_time k) (k_open_time h)) as [Hle|Hgt].
    + constructor; [now constructor|].
      constructor; [exact Hle|].
      eapply Forall_impl; [|exact Hhead].
      unfold time_le. intros a Ha. lia.
    + constructor; [exact IH|].
      rewrite <- (insert_before_permutes k t).
      constructor; [unfold time_le; lia | exact Hhead].
Qed.

Lemma sort_ties_kept_meets_contract : sorts_by_timestamp sort_ties_kept.
Proof.
  split; intros l; induction l as [|k l IH]; simpl;
    try constructor.
  - rewrite <- insert_before_permutes. now constructor.
  - now apply insert_before_ascending.
Qed.

Lemma sort_ties_reversed_meets_contract :
  sorts_by_timestamp sort_ties_reversed.
Proof.
  split; intros l; induction l as [|k l IH]; simpl;
    try constructor.
  - rewrite <- insert_after_permutes. now constructor.
  - now apply insert_after_ascending.
Qed.



End SortFacts.

(** * Properties of the endpoint *)

Section EndpointFacts.

Import Fetcher Normalizer Estimator Endpoint.

Variable exchange : nat -> klines_params -> reply.
Variable sort_values : list kline -> list kline.
Variable isoformat : Z -> string.
Variable http_exception_str : Z -> string -> string.

Let endpoint := get_volatility exchange sort_values isoformat
                  http_exception_str.
Let answer := respond sort_values isoformat.

(** A 200 answer is [respond] applied to a non-empty fetch result. *)
Lemma success_inv (symbol interval : string) (lookback_hours now_ms : Z)
    (fuel : nat) (body : VolatilityResponse) :
  endpoint symbol interval lookback_hours now_ms fuel = Some (Ok200 body) ->
  exists rows,
    fetch exchange symbol interval lookback_hours now_ms fuel
      = Some (inr rows) /\
    rows <> [] /\ body = answer symbol rows.
Proof.
  subst endpoint answer. unfold get_volatility, try_block.
  destruct (fetch exchange symbol interval lookback_hours now_ms fuel)
    as [[e|[|k rows]]|]; simpl; try discriminate.
  - destruct e; discriminate.
  - intros [= <-]. exists (k :: rows). repeat split. discriminate.
Qed.

Lemma success_intro (symbol interval : string) (lookback_hours now_ms : Z)
    (fuel : nat) (rows : list kline) :
  fetch exchange symbol interval lookback_hours now_ms fuel
    = Some (inr rows) ->
  rows <> [] ->
  endpoint symbol interval lookback_hours now_ms fuel
    = Some (Ok200 (answer symbol rows)).
Proof.
  intros Hfetch Hne. subst endpoint answer.
  unfold get_volatility, try_block. rewrite Hfetch.
  destruct rows; [contradiction | reflexivity].
Qed.


Lemma respond_lengths (symbol : string) (rows : list kline) :
  (forall l, Permutation l (sort_values l)) ->
  length (timestamps (answer symbol rows)) = length rows /\
  length (rolling_vols (answer symbol rows)) = length rows /\
  length (prices (answer symbol rows)) = length rows.
Proof.
  intros Hperm. subst answer. unfold respond, normalize. cbn.
  rewrite fillna0_length, vol_1h_bps_length, !length_map.
  rewrite <- (Permutation_length (Hperm rows)). auto.
Qed.

End EndpointFacts.

Section ScalingFacts.

Import Estimator Reference.
Local Open Scope R_scope.

Lemma hourly_factor : sqrt (INR intervals_per_hour) = sqrt 12.
Proof.
  f_equal. change intervals_per_hour with 12%nat.
  rewrite INR_IZR_INZ. reflexivity.
Qed.

Lemma to_hourly_bps_value (c : option R) :
  to_hourly_bps c = option_map (fun sd => sd * sqrt 12 * 10000) c.
Proof.
  unfold to_hourly_bps. rewrite hourly_factor. reflexivity.
Qed.

(** With positive prices the whole-range deviation is taken over all the
    log returns. *)
Lemma overall_vol_positive (closes : list R) :
  positive_prices closes -> ratios_in_range closes ->
  overall_vol closes = to_hourly_bps (std_ddof1 (log_returns closes)).
Proof.
  intros Hpos Hrange. unfold overall_vol, series_std.
  destruct closes as [|c cs]; [reflexivity|].
  rewrite (returns_of_positive Hpos Hrange).
  cbn [has_infinity existsb orb finite_cells].
  fold (has_infinity (map Finite (log_returns (c :: cs)))).
  now rewrite no_infinity_among_finite, finite_cells_finite.
Qed.

End ScalingFacts.

(** ** Two requests worked through *)

Section WorkedRequests.

Import Endpoint Scenario.
Local Open Scope Z_scope.

Lemma hour_request_answer : hour_request = Some (Ok200 hour_body).
Proof. reflexivity. Qed.

Lemma hour_prices : prices hour_body = hour_of_closes.
Proof. reflexivity. Qed.

Lemma jump_request_answer : jump_request = Some (Ok200 jump_body).
Proof. reflexivity. Qed.

Lemma jump_prices : prices jump_body = one_jump.
Proof. reflexivity. Qed.

Lemma one_jump_positive : Reference.positive_prices one_jump.
Proof. repeat constructor; lra. Qed.

Lemma hour_of_closes_positive : Reference.positive_prices hour_of_closes.
Proof. repeat constructor; lra. Qed.

Lemma one_jump_in_range : Reference.ratios_in_range one_jump.
Proof.
  repeat constructor; cbn [fst snd]; apply moderate_representable; lra.
Qed.

Lemma hour_of_closes_in_range : Reference.ratios_in_range hour_of_closes.
Proof.
  repeat constructor; cbn [fst snd]; apply moderate_representable; lra.
Qed.

End WorkedRequests.

(** ** The thirteen closes of [one_jump] *)

Section JumpFacts.

Import Estimator Reference Scenario.
Local Open Scope R_scope.

Lemma Rsum_positive (xs : list R) (y : R) :
  Forall (fun x => 0 <= x) xs -> In y xs -> 0 < y -> 0 < Rsum xs.
Proof.
  induction 1 as [|x xs Hx Hall IH]; intros Hin Hy; [contradiction|].
  pose proof (Rsum_nonneg Hall) as Hrest.
  change (Rsum (x :: xs)) with (x + Rsum xs).
  destruct Hin as [->|Hin]; [lra|]. specialize (IH Hin Hy). lra.
Qed.

(** Values that are not all equal to their mean have a positive sum of
    squared deviations. *)
Lemma sum_sq_dev_positive (xs : list R) (x : R) :
  In x xs -> x <> mean xs -> 0 < sum_sq_dev xs.
Proof.
  intros Hin Hne. unfold sum_sq_dev.
  apply Rsum_positive with (y := (x - mean xs) * (x - mean xs)).
  - apply Forall_forall. intros y Hy.
    apply in_map_iff in Hy as (z & <- & _).
    generalize (z - mean xs). intros d. nra.
  - apply in_map_iff. eauto.
  - assert (Hd : x - mean xs <> 0) by lra.
    revert Hd. generalize (x - mean xs). intros d Hd. nra.
Qed.

Lemma one_jump_returns :
  log_returns one_jump = repeat 0 11 ++ [ln 2].
Proof.
  unfold log_returns, one_jump.
  cbn [repeat app tl combine map fst snd].
  replace (1 / 1) with 1 by field. replace (2 / 1) with 2 by field.
  rewrite ln_1. reflexivity.
Qed.

Lemma one_jump_deviation :
  exists sd, std_ddof1 (log_returns one_jump) = Some sd /\ 0 < sd.
Proof.
  rewrite one_jump_returns. unfold std_ddof1.
  cbn [repeat app length Nat.leb]. eexists. split; [reflexivity|].
  apply sqrt_lt_R0. apply Rdiv_lt_0_compat.
  - apply sum_sq_dev_positive with (x := 0); [now left|].
    unfold mean. cbn [Rsum fold_right length].
    pose proof ln_lt_2 as Hln. rewrite INR_IZR_INZ. simpl Z.of_nat.
    intros Heq. lra.
  - rewrite INR_IZR_INZ. simpl Z.of_nat. lra.
Qed.

(** The rolling column of [one_jump]: twelve NaN, then one positive
    value. *)
Lemma one_jump_vol :
  exists v, 0 < v /\ vol_1h_bps one_jump = repeat None 12 ++ [Some v].
Proof.
  destruct one_jump_deviation as (sd & Hsd & Hpos).
  exists (sd * sqrt 12 * 10000). split.
  - assert (0 < sqrt 12) by (apply sqrt_lt_R0; lra).
    apply Rmult_lt_0_compat; [now apply Rmult_lt_0_compat | lra].
  - apply nth_error_ext. intros i.
    destruct (lt_eq_lt_dec i 12) as [[Hlt| ->]|Hgt].
    + rewrite vol_1h_bps_early by (rewrite ?window_size_is_12; simpl; lia).
      rewrite nth_error_app1 by (rewrite repeat_length; exact Hlt).
      symmetry. now apply nth_error_repeat.
    + destruct (@vol_1h_bps_late one_jump 12 one_jump_positive
                  one_jump_in_range)
        as [Hnth _]; [simpl; lia | rewrite window_size_is_12; lia |].
      rewrite Hnth, window_size_is_12.
      replace (skipn (12 - 12) (firstn 12 (log_returns one_jump)))
        with (log_returns one_jump)
        by (rewrite one_jump_returns; reflexivity).
      rewrite Hsd, to_hourly_bps_value. reflexivity.
    + transitivity (@None (option R)); [|symmetry];
        apply nth_error_None;
        [rewrite vol_1h_bps_length | rewrite length_app, repeat_length];
        simpl; lia.
Qed.

End JumpFacts.

(** ** Where [current_vol] and the last entry of [rolling_vols] part *)

Section CurrentVolFacts.

Import Estimator Reference.
Local Open Scope R_scope.

Lemma last_nth (A : Type) (l : list A) (d : A) :
  l <> [] -> nth_error l (length l - 1) = Some (last l d).
Proof.
  induction l as [|a [|b l] IH]; intros Hne;
    [contradiction | reflexivity |].
  change (last (a :: b :: l) d) with (last (b :: l) d).
  rewrite <- IH by discriminate.
  cbn [length]. replace (S (S (length l)) - 1)%nat with (S (length l)) by lia.
  cbn [nth_error]. f_equal. lia.
Qed.

(** Up to twelve closes: the last rolling cell is NaN, and goes out as 0
    in the list. *)
Lemma last_cell_short (closes : list R) :
  closes <> [] -> (length closes <= window_size)%nat ->
  iloc_last (vol_1h_bps closes) = None /\
  last (fillna0 (vol_1h_bps closes)) 0 = 0.
Proof.
  intros Hne Hlen.
  assert (Hn : (0 < length closes)%nat)
    by (destruct closes; [contradiction | simpl; lia]).
  assert (Hcell : nth_error (vol_1h_bps closes) (length closes - 1)
                  = Some None) by (apply vol_1h_bps_early; lia).
  assert (Hvol : vol_1h_bps closes <> []).
  { intros Hnil. apply (f_equal (@length _)) in Hnil.
    rewrite vol_1h_bps_length in Hnil. simpl in Hnil. lia. }
  split.
  - pose proof (iloc_last_nth Hvol) as Hlast.
    rewrite vol_1h_bps_length in Hlast. congruence.
  - assert (Hfill : fillna0 (vol_1h_bps closes) <> []).
    { intros Hnil. apply (f_equal (@length _)) in Hnil.
      rewrite fillna0_length, vol_1h_bps_length in Hnil. simpl in Hnil. lia. }
    pose proof (last_nth 0 Hfill) as Hlast.
    rewrite fillna0_length, vol_1h_bps_length, fillna0_nth, Hcell in Hlast.
    simpl in Hlast. congruence.
Qed.

(** Thirteen positive closes or more: the last rolling cell is defined,
    and the list ends with the same number. *)
Lemma last_cell_long (closes : list R) :
  positive_prices closes -> ratios_in_range closes ->
  (window_size < length closes)%nat ->
  exists v,
    iloc_last (vol_1h_bps closes) = Some v /\
    last (fillna0 (vol_1h_bps closes)) 0 = v.
Proof.
  intros Hpos Hrange Hlen.
  destruct (@vol_1h_bps_late closes (length closes - 1) Hpos Hrange)
    as [Hcell Hwin]; [lia | lia |].
  destruct (@std_ddof1_defined
              (skipn (length closes - 1 - window_size)
                 (firstn (length closes - 1) (log_returns closes))))
    as [sd Hsd]; [rewrite Hwin, window_size_is_12; lia|].
  rewrite Hsd in Hcell. cbn [to_hourly_bps option_map] in Hcell.
  eexists.
  assert (Hvol : vol_1h_bps closes <> []).
  { intros Hnil. apply (f_equal (@length _)) in Hnil.
    rewrite vol_1h_bps_length in Hnil. simpl in Hnil. lia. }
  assert (Hfill : fillna0 (vol_1h_bps closes) <> []).
  { intros Hnil. apply (f_equal (@length _)) in Hnil.
    rewrite fillna0_length, vol_1h_bps_length in Hnil. simpl in Hnil. lia. }
  split.
  - pose proof (iloc_last_nth Hvol) as Hlast.
    rewrite vol_1h_bps_length, Hcell in Hlast.
    injection Hlast as Hlast. symmetry. exact Hlast.
  - pose proof (last_nth 0 Hfill) as Hlast.
    rewrite fillna0_length, vol_1h_bps_length, fillna0_nth, Hcell in Hlast.
    simpl in Hlast. congruence.
Qed.

End CurrentVolFacts.

(** ** Cells of the return column, whatever the prices *)

Section CellFacts.

Import Estimator Reference.
Local Open Scope R_scope.

Lemma magnitude_representable (r : R) :
  / 4 <= Rabs r <= 4 -> representable r.
Proof.
  intros [Hlo Hhi]. unfold representable.
  pose proof overflow_threshold_large. pose proof underflow_threshold_small.
  lra.
Qed.

Lemma shifted_cells (c : R) (cs : list R) (i : nat) :
  (i < length cs)%nat ->
  nth_error
    (map flog
       (map (fun p => fdiv (fst p) (snd p))
          (combine (map Finite cs) (removelast (map Finite (c :: cs)))))) i
  = Some (flog (fdiv (Finite (nth i cs 0)) (Finite (nth i (c :: cs) 0)))).
Proof.
  revert c i. induction cs as [|d ds IH]; intros c i Hi; [simpl in Hi; lia|].
  change (removelast (map Finite (c :: d :: ds)))
    with (Finite c :: removelast (map Finite (d :: ds))).
  destruct i as [|i]; [reflexivity|].
  exact (IH d i ltac:(simpl in Hi; lia)).
Qed.

(** Row [i + 1] of the return column is [np.log] of the float quotient of
    close [i + 1] by close [i]. *)
Lemma returns_of_nth (closes : list R) (i : nat) :
  (S i < length closes)%nat ->
  nth_error (returns_of closes) (S i)
  = Some (flog (fdiv (Finite (nth (S i) closes 0))
                     (Finite (nth i closes 0)))).
Proof.
  destruct closes as [|c cs]; intros Hi; [simpl in Hi; lia|].
  unfold returns_of, np_log, series_div, of_floats, shift1.
  cbn [map combine nth_error].
  change (nth (S i) (c :: cs) 0) with (nth i cs 0).
  apply (@shifted_cells c cs i). simpl in Hi. lia.
Qed.

Lemma fdiv_zero (y : R) : y <> 0 -> fdiv (Finite 0) (Finite y) = Finite 0.
Proof.
  intros Hy. unfold fdiv, rounded.
  destruct (Req_dec_T y 0); [contradiction|].
  pose proof overflow_threshold_large. pose proof underflow_threshold_small.
  replace (0 / y) with 0 by (field; exact Hy). rewrite Rabs_R0.
  destruct (Rlt_dec 0 overflow_threshold); [|lra].
  destruct (Rle_dec 0 underflow_threshold); [reflexivity|lra].
Qed.

Lemma flog_zero : flog (Finite 0) = Infinite true.
Proof.
  unfold flog. destruct (Rlt_dec 0 0); [lra|].
  destruct (Req_dec_T 0 0); [reflexivity|contradiction].
Qed.

Lemma flog_negative (x : R) : x < 0 -> flog (Finite x) = NaN.
Proof.
  intros Hx. unfold flog. destruct (Rlt_dec 0 x); [lra|].
  destruct (Req_dec_T x 0); [lra|reflexivity].
Qed.

Lemma finite_cells_short (s : column) (c : float64) :
  In c s -> (forall x, c <> Finite x) ->
  (length (finite_cells s) < length s)%nat.
Proof.
  intros Hin Hc. induction s as [|d s IH]; [contradiction|].
  pose proof (finite_cells_length_le s) as Hle.
  destruct Hin as [->|Hin].
  - destruct c as [x| |]; [now elim (Hc x) | simpl; lia | simpl; lia].
  - specialize (IH Hin). destruct d; simpl; lia.
Qed.

Lemma window_length_le (w i : nat) (s : column) :
  (1 <= w)%nat -> (length (window w i s) <= w)%nat.
Proof.
  intros Hw. unfold window. rewrite length_skipn, length_firstn. lia.
Qed.

Lemma window_holds_row (w i : nat) (s : column) (c : float64) :
  (1 <= w)%nat -> nth_error s i = Some c -> In c (window w i s).
Proof.
  intros Hw Hi. unfold window.
  apply nth_error_In with (n := (i - (S i - w))%nat).
  rewrite nth_error_skipn.
  replace (S i - w + (i - (S i - w)))%nat with i by lia.
  rewrite nth_error_firstn.
  destruct (Nat.ltb_spec i (S i)); [exact Hi | lia].
Qed.

(** A row whose return is NaN or an infinity has no rolling value. *)
Lemma undefined_return_blanks_row (closes : list R) (i : nat) (c : float64) :
  nth_error (returns_of closes) i = Some c ->
  (forall x, c <> Finite x) ->
  nth_error (vol_1h_bps closes) i = Some None.
Proof.
  intros Hcell Hc.
  assert (Hi : (i < length closes)%nat).
  { rewrite <- returns_of_length. apply nth_error_Some. congruence. }
  rewrite vol_1h_bps_nth by exact Hi. cbv zeta.
  assert (Hw : (1 <= window_size)%nat) by (rewrite window_size_is_12; lia).
  pose proof (@window_length_le window_size i (returns_of closes) Hw)
    as Hlen.
  pose proof (@finite_cells_short _ c
                (@window_holds_row window_size i (returns_of closes) c
                   Hw Hcell) Hc) as Hshort.
  destruct (Nat.leb_spec window_size
              (length (finite_cells
                         (window window_size i (returns_of closes)))));
    [lia | reflexivity].
Qed.



End CellFacts.

(** ** The deviation by the sum-of-squares formula *)

Section DeviationFacts.

Import Estimator Reference.
Local Open Scope R_scope.










End DeviationFacts.

(** ** The sort that keeps ties *)

Section StableFacts.

Import Normalizer.
Local Open Scope Z_scope.








End StableFacts.

(** * The claims *)

Unset Implicit Arguments.

(** C1, at a symbol the exchange has no klines for: the loop completes
    with an empty [all_data], line 71 raises the 404, and the answer that
    leaves the endpoint has status 500. *)
Theorem no_data_is_answered_with_500 :
  forall (sort_values : list kline -> list kline) (isoformat : Z -> string)
         (http_exception_str : Z -> string -> string),
    Fetcher.fetch Scenario.no_data "nosuchpair" "5m" 24 1700000000000 1
      = Some (inr []) /\
    Endpoint.get_volatility Scenario.no_data sort_values isoformat
      http_exception_str "nosuchpair" "5m" 24 1700000000000 1
    = Some (Endpoint.HttpError 500
              (http_exception_str 404%Z
                 "No data found for nosuchpair"%string)) /\
    option_map Endpoint.status_of
      (Endpoint.get_volatility Scenario.no_data sort_values isoformat
         http_exception_str "nosuchpair" "5m" 24 1700000000000 1)
    <> Some 404%Z.
Proof.
  intros sort_values isoformat http_exception_str.
  split; [reflexivity|]. split; [reflexivity|]. discriminate.
Qed.

(** C2, as stated, at the interval "1h": a page whose last kline opens at
    1700000000000 moves [current_start_ms] to 1700000300000, five minutes
    on, and not to 1700003600000, one hour on. *)
Lemma hourly_interval_advances_five_minutes :
  exists st',
    Fetcher.loop_body Scenario.hourly "btcusdt" "1h" 1700086400000
      (Fetcher.mk_state 0 1700000000000 []) = Fetcher.Continue st' /\
    Reference.interval_duration_ms "1h" = Some 3600000%Z /\
    Fetcher.current_start_ms st' = (1700000000000 + 300000)%Z /\
    Fetcher.current_start_ms st' <> (1700000000000 + 3600000)%Z.
Proof.
  eexists. split; [reflexivity|]. split; [reflexivity|].
  split; [reflexivity|]. simpl. lia.
Qed.

(** C2, amended: for every interval string, one pass of the loop asks for
    [startTime = current_start_ms], [endTime = end_ms], at most 1000 rows
    and the upper-cased symbol, and a non-empty page moves
    [current_start_ms] to the open time of its last kline plus 300000 ms
    (the length of a "5m" candle); the loop ends when [current_start_ms]
    has reached [end_ms] or the page is empty, and a failed request leaves
    it with the exception. *)
Theorem loop_advances_by_300000 :
  forall (exchange : nat -> klines_params -> reply)
         (symbol interval : string) (end_ms : Z)
         (st : Fetcher.loop_state) (fuel : nat),
    Fetcher.params_of symbol interval end_ms st
      = mk_params (upper symbol) interval
                  (Fetcher.current_start_ms st) end_ms 1000 /\
    Reference.interval_duration_ms "5m" = Some 300000%Z /\
    ((end_ms <= Fetcher.current_start_ms st)%Z ->
     Fetcher.fetch_loop exchange symbol interval end_ms fuel st
       = Some (inr (Fetcher.all_data st))) /\
    ((Fetcher.current_start_ms st < end_ms)%Z ->
     match exchange (Fetcher.calls st)
                    (Fetcher.params_of symbol interval end_ms st) with
     | Failed msg =>
         Fetcher.fetch_loop exchange symbol interval end_ms (S fuel) st
           = Some (inl (RequestException msg))
     | Page [] =>
         Fetcher.fetch_loop exchange symbol interval end_ms (S fuel) st
           = Some (inr (Fetcher.all_data st))
     | Page data =>
         Fetcher.fetch_loop exchange symbol interval end_ms (S fuel) st
           = Fetcher.fetch_loop exchange symbol interval end_ms fuel
               (Fetcher.mk_state
                  (S (Fetcher.calls st))
                  (k_open_time (Fetcher.last_kline data) + 300000)%Z
                  (Fetcher.all_data st ++ data))
     end).
Proof.
  intros exchange symbol interval end_ms st fuel.
  split; [reflexivity|]. split; [reflexivity|]. split.
  - apply loop_exit_at_end.
  - intros Hlt. rewrite loop_pass by exact Hlt. unfold Fetcher.loop_body.
    destruct (exchange (Fetcher.calls st)
                (Fetcher.params_of symbol interval end_ms st))
      as [[|k data]|msg]; reflexivity.
Qed.

Lemma loop_advances_by_300000_witness :
  ((1700000000000 < 1700086400000)%Z /\
   Fetcher.fetch_loop Scenario.hourly "btcusdt" "1h" 1700086400000 1
     (Fetcher.mk_state 0 1700000000000 [])
   = Fetcher.fetch_loop Scenario.hourly "btcusdt" "1h" 1700086400000 0
       (Fetcher.mk_state 1 1700000300000
          [Scenario.flat 1700000000000 100])) /\
  ((1700086400000 <= 1700086400000)%Z /\
   Fetcher.fetch_loop Scenario.hourly "btcusdt" "1h" 1700086400000 0
     (Fetcher.mk_state 1 1700086400000 [Scenario.flat 1700086100000 100])
   = Some (inr [Scenario.flat 1700086100000 100])).
Proof.
  split; (split; [lia|]).
  - exact (proj2 (proj2 (proj2
             (loop_advances_by_300000 Scenario.hourly "btcusdt" "1h"
                1700086400000 (Fetcher.mk_state 0 1700000000000 []) 0)))
           ltac:(simpl; lia)).
  - exact (proj1 (proj2 (proj2
             (loop_advances_by_300000 Scenario.hourly "btcusdt" "1h"
                1700086400000
                (Fetcher.mk_state 1 1700086400000
                   [Scenario.flat 1700086100000 100]) 0)))
           ltac:(simpl; lia)).
Defined.

(** C3, at a one-hour lookback: the twelve rolling values go out as 0,
    and [current_vol], read from the unfilled column, is NaN. *)
Theorem one_hour_lookback_current_vol_is_nan :
  Scenario.hour_request = Some (Endpoint.Ok200 Scenario.hour_body) /\
  length (Endpoint.prices Scenario.hour_body) = 12%nat /\
  Endpoint.rolling_vols Scenario.hour_body = repeat 0%R 12 /\
  last (Endpoint.rolling_vols Scenario.hour_body) 0%R = 0%R /\
  Endpoint.current_vol Scenario.hour_body = None.
Proof.
  split; [exact hour_request_answer|]. split; [reflexivity|].
  assert (Hvol : Estimator.vol_1h_bps Scenario.hour_of_closes
                 = repeat None 12).
  { apply nth_error_ext. intros i.
    destruct (le_lt_dec 12 i) as [Hout|Hin].
    - transitivity (@None (option R)); [|symmetry];
        apply nth_error_None; [rewrite vol_1h_bps_length|rewrite repeat_length];
        exact Hout.
    - rewrite vol_1h_bps_early by (rewrite ?window_size_is_12; exact Hin).
      symmetry. apply nth_error_repeat. exact Hin. }
  unfold Scenario.hour_body, Endpoint.respond.
  cbn [Endpoint.rolling_vols Endpoint.current_vol].
  change (map k_close
            (Normalizer.normalize Normalizer.sort_ties_kept Scenario.one_hour))
    with Scenario.hour_of_closes.
  rewrite Hvol. repeat split; reflexivity.
Qed.

(** C4, as stated, on thirteen closes (twelve at 1, then 2): row 0 of the
    rolling column is undefined and the zero-filled minimum is 0, yet
    [min_vol] is the one defined value, which is positive. *)
Lemma jump_min_vol_is_not_zero :
  Scenario.jump_request = Some (Endpoint.Ok200 Scenario.jump_body) /\
  nth_error (Estimator.vol_1h_bps (Endpoint.prices Scenario.jump_body)) 0
  = Some None /\
  Reference.zero_filled_min
    (Estimator.vol_1h_bps (Endpoint.prices Scenario.jump_body)) = Some 0%R /\
  (exists v, (0 < v)%R /\ Endpoint.min_vol Scenario.jump_body = Some v) /\
  Endpoint.min_vol Scenario.jump_body <> Some 0%R /\
  Endpoint.min_vol Scenario.jump_body
  <> Reference.zero_filled_min
       (Estimator.vol_1h_bps (Endpoint.prices Scenario.jump_body)).
Proof.
  split; [exact jump_request_answer|].
  rewrite jump_prices.
  assert (Hmin : Endpoint.min_vol Scenario.jump_body
                 = Estimator.series_min
                     (Estimator.vol_1h_bps Scenario.one_jump))
    by reflexivity.
  rewrite Hmin. destruct one_jump_vol as (v & Hv & ->).
  assert (Hfilled : Reference.zero_filled_min (repeat None 12 ++ [Some v])
                    = Some 0%R).
  { unfold Reference.zero_filled_min.
    cbn [repeat app Estimator.fillna0 map fold_left].
    rewrite !(Rmin_left 0 0) by lra.
    rewrite (Rmin_left 0 v) by lra. reflexivity. }
  assert (Hraw : Estimator.series_min (repeat None 12 ++ [Some v]) = Some v)
    by reflexivity.
  rewrite Hfilled, Hraw.
  split; [reflexivity|]. split; [reflexivity|].
  split; [exists v; split; [exact Hv | reflexivity]|].
  split; intros [= Heq]; lra.
Qed.

(** C4, amended: [min_vol] and [max_vol] are the least and the greatest of
    the defined rolling values; undefined rows are skipped, not counted as
    0, and both are defined as soon as one rolling value is. *)
Theorem extrema_are_taken_over_defined_values :
  forall (exchange : nat -> klines_params -> reply)
         (sort_values : list kline -> list kline) (isoformat : Z -> string)
         (http_exception_str : Z -> string -> string)
         (symbol interval : string) (lookback_hours now_ms : Z) (fuel : nat)
         (body : Endpoint.VolatilityResponse),
    Endpoint.get_volatility exchange sort_values isoformat http_exception_str
      symbol interval lookback_hours now_ms fuel = Some (Endpoint.Ok200 body) ->
    let vol := Estimator.vol_1h_bps (Endpoint.prices body) in
    Endpoint.rolling_vols body = Estimator.fillna0 vol /\
    (forall lo, Endpoint.min_vol body = Some lo ->
       (exists i, nth_error vol i = Some (Some lo)) /\
       (forall i v, nth_error vol i = Some (Some v) -> (lo <= v)%R)) /\
    (forall hi, Endpoint.max_vol body = Some hi ->
       (exists i, nth_error vol i = Some (Some hi)) /\
       (forall i v, nth_error vol i = Some (Some v) -> (v <= hi)%R)) /\
    (forall i v, nth_error vol i = Some (Some v) ->
       (exists lo, Endpoint.min_vol body = Some lo) /\
       (exists hi, Endpoint.max_vol body = Some hi)).
Proof.
  intros exchange sort_values isoformat http_exception_str symbol interval
    lookback_hours now_ms fuel body Hok vol.
  destruct (success_inv _ _ _ _ _ _ _ _ _ Hok) as (rows & _ & _ & ->).
  subst vol.
  cbn [Endpoint.respond Endpoint.min_vol Endpoint.max_vol Endpoint.prices
       Endpoint.rolling_vols].
  split; [reflexivity|]. split; [|split].
  - intros lo. apply series_min_spec.
  - intros hi. apply series_max_spec.
  - intros i v. apply series_extrema_defined.
Qed.

Lemma extrema_are_taken_over_defined_values_witness :
  Scenario.jump_request = Some (Endpoint.Ok200 Scenario.jump_body) /\
  (forall i v,
      nth_error (Estimator.vol_1h_bps (Endpoint.prices Scenario.jump_body)) i
      = Some (Some v) ->
      (exists lo, Endpoint.min_vol Scenario.jump_body = Some lo) /\
      (exists hi, Endpoint.max_vol Scenario.jump_body = Some hi)).
Proof.
  split; [exact jump_request_answer|].
  exact (proj2 (proj2 (proj2 (extrema_are_taken_over_defined_values
                  (Scenario.serves Scenario.jump_book)
                  Normalizer.sort_ties_kept Scenario.no_text
                  Scenario.detail_only "btcusdt"%string "5m"%string
                  2%Z 1700000000000%Z 1%nat Scenario.jump_body
                  jump_request_answer)))).
Defined.

(** C5, as stated, on the closes 1, -1: the quotient of row 1 is
    negative, [np.log] gives NaN, and the return column has no defined
    entry where N - 1 = 1 is claimed. *)
Lemma negative_close_leaves_no_return :
  Estimator.returns_of [1; -1]%R = [Estimator.NaN; Estimator.NaN] /\
  nth_error (Estimator.returns_of [1; -1]%R) 1
  <> Some (Estimator.Finite (ln (-1 / 1))) /\
  length (Estimator.finite_cells (Estimator.returns_of [1; -1]%R))
  <> (length [1; -1]%R - 1)%nat.
Proof.
  assert (Hreturns : Estimator.returns_of [1; -1]%R
                     = [Estimator.NaN; Estimator.NaN]).
  { unfold Estimator.returns_of, Estimator.np_log, Estimator.series_div,
      Estimator.of_floats, Estimator.shift1.
    cbn [map removelast combine fst snd].
    change (Estimator.fdiv (Estimator.Finite 1) Estimator.NaN)
      with Estimator.NaN.
    rewrite fdiv_finite
      by (try lra; apply magnitude_representable;
          rewrite Rabs_left by lra; lra).
    rewrite flog_negative by lra. reflexivity. }
  rewrite Hreturns. split; [reflexivity|].
  split; [discriminate | simpl; lia].
Qed.

(** C5, amended: for N >= 1 closes the return column has N rows and row 0
    is NaN; row i >= 1 is [np.log] of the float quotient of close i by
    close i - 1; when the closes are positive and each quotient is within
    the range of binary64, row i >= 1 holds [ln (close[i] / close[i-1])]
    and exactly N - 1 rows are defined. *)
Theorem returns_have_one_undefined_row :
  forall closes : list R,
    (1 <= length closes)%nat ->
    length (Estimator.returns_of closes) = length closes /\
    nth_error (Estimator.returns_of closes) 0 = Some Estimator.NaN /\
    (forall i, (1 <= i < length closes)%nat ->
       nth_error (Estimator.returns_of closes) i
       = Some (Estimator.flog
                 (Estimator.fdiv (Estimator.Finite (nth i closes 0%R))
                    (Estimator.Finite (nth (i - 1) closes 0%R))))) /\
    (Reference.positive_prices closes ->
     Reference.ratios_in_range closes ->
     (forall i, (1 <= i < length closes)%nat ->
        nth_error (Estimator.returns_of closes) i
        = Some (Estimator.Finite
                  (ln (nth i closes 0 / nth (i - 1) closes 0)%R))) /\
     length (Estimator.finite_cells (Estimator.returns_of closes))
     = (length closes - 1)%nat).
Proof.
  intros closes Hlen.
  destruct closes as [|c cs]; [simpl in Hlen; lia|].
  split; [apply returns_of_length|]. split; [|split].
  - destruct (returns_of_head c cs) as [rest ->]. reflexivity.
  - intros [|i] Hi; [lia|].
    rewrite returns_of_nth by lia.
    replace (S i - 1)%nat with i by lia. reflexivity.
  - intros Hpos Hrange. rewrite (returns_of_positive Hpos Hrange). split.
    + intros [|i] Hi; [lia|]. cbn [nth_error].
      rewrite nth_error_map, log_returns_nth by lia.
      replace (S i - 1)%nat with i by lia. reflexivity.
    + cbn [Estimator.finite_cells].
      now rewrite finite_cells_finite, log_returns_length.
Qed.

Lemma returns_have_one_undefined_row_witness :
  (1 <= length [100; 101; 100]%R)%nat /\
  Reference.positive_prices [100; 101; 100]%R /\
  Reference.ratios_in_range [100; 101; 100]%R /\
  nth_error (Estimator.returns_of [100; 101; 100]%R) 2
  = Some (Estimator.Finite (ln (100 / 101)%R)).
Proof.
  assert (Hpos : Reference.positive_prices [100; 101; 100]%R)
    by (repeat constructor; lra).
  assert (Hrange : Reference.ratios_in_range [100; 101; 100]%R)
    by (repeat constructor; cbn [fst snd];
        apply moderate_representable; lra).
  split; [simpl; lia|]. split; [exact Hpos|]. split; [exact Hrange|].
  exact (proj1 (proj2 (proj2 (proj2
                  (returns_have_one_undefined_row [100; 101; 100]%R
                     ltac:(simpl; lia))))
                  Hpos Hrange) 2%nat ltac:(simpl; lia)).
Defined.

(** C6, as stated, on thirteen closes (twelve at 1, then 0): the return of
    row 12 is [np.log 0], minus infinity, which the rolling code reads as
    NaN, so row 12 has no rolling value although 12 >= window_size. *)
Lemma zero_close_leaves_row_12_undefined :
  nth_error (Estimator.returns_of (repeat 1 12 ++ [0])%R) 12
  = Some (Estimator.Infinite true) /\
  nth_error (Estimator.vol_1h_bps (repeat 1 12 ++ [0])%R) 12 = Some None /\
  (Estimator.window_size <= 12)%nat /\
  ~ ((exists v,
         nth_error (Estimator.vol_1h_bps (repeat 1 12 ++ [0])%R) 12
         = Some (Some v))
     <-> (Estimator.window_size <= 12)%nat).
Proof.
  assert (Hcell : nth_error (Estimator.returns_of (repeat 1 12 ++ [0])%R) 12
                  = Some (Estimator.Infinite true)).
  { rewrite returns_of_nth by (simpl; lia).
    change (nth 12 (repeat 1 12 ++ [0]) 0)%R with 0%R.
    change (nth 11 (repeat 1 12 ++ [0]) 0)%R with 1%R.
    rewrite fdiv_zero by lra. now rewrite flog_zero. }
  assert (Hrow : nth_error (Estimator.vol_1h_bps (repeat 1 12 ++ [0])%R) 12
                 = Some None).
  { eapply undefined_return_blanks_row; [exact Hcell | discriminate]. }
  split; [exact Hcell|]. split; [exact Hrow|].
  split; [rewrite window_size_is_12; lia|].
  intros [_ Hdefined].
  destruct Hdefined as [v Hv]; [rewrite window_size_is_12; lia|].
  rewrite Hrow in Hv. discriminate.
Qed.

(** C6, amended: with [window_size] fixed at 12, the rows before row 12
    have no rolling value, every rolling value belongs to a row i >= 12 and
    is >= 0, and when the closes are positive and each quotient is within
    the range of binary64, row i has a rolling value exactly when
    i >= 12. *)
Theorem rolling_defined_from_window_size :
  forall closes : list R,
    Estimator.window_size = 12%nat /\
    (forall i, (i < length closes)%nat -> (i < Estimator.window_size)%nat ->
       nth_error (Estimator.vol_1h_bps closes) i = Some None) /\
    (forall i v,
       nth_error (Estimator.vol_1h_bps closes) i = Some (Some v) ->
       (Estimator.window_size <= i)%nat /\ (0 <= v)%R) /\
    (Reference.positive_prices closes ->
     Reference.ratios_in_range closes ->
     forall i, (i < length closes)%nat ->
       (exists v, nth_error (Estimator.vol_1h_bps closes) i = Some (Some v))
       <-> (Estimator.window_size <= i)%nat).
Proof.
  intros closes. split; [reflexivity|]. split; [|split].
  - intros i Hi Hlt. now apply vol_1h_bps_early.
  - intros i v Hv.
    assert (Hi : (i < length closes)%nat).
    { rewrite <- vol_1h_bps_length. apply nth_error_Some. congruence. }
    split.
    + destruct (le_lt_dec Estimator.window_size i) as [Hge|Hlt];
        [exact Hge|].
      rewrite vol_1h_bps_early in Hv by assumption. discriminate.
    + rewrite vol_1h_bps_nth in Hv by exact Hi.
      injection Hv as Hv. eapply to_hourly_bps_nonneg; [|exact Hv].
      cbv zeta. intros x.
      match goal with
      | |- (if ?enough then _ else _) = _ -> _ => destruct enough
      end; [apply std_ddof1_nonneg | discriminate].
  - intros Hpos Hrange i Hi. split.
    + intros [v Hv].
      destruct (le_lt_dec Estimator.window_size i) as [Hge|Hlt];
        [exact Hge|].
      rewrite vol_1h_bps_early in Hv by assumption. discriminate.
    + intros Hge.
      destruct (vol_1h_bps_late Hpos Hrange Hi Hge) as [Hnth Hlen].
      destruct (@std_ddof1_defined
                  (skipn (i - Estimator.window_size)
                     (firstn i (Reference.log_returns closes))))
        as [sd Hsd]; [rewrite Hlen, window_size_is_12; lia|].
      rewrite Hnth, Hsd. simpl. eauto.
Qed.

Lemma rolling_defined_from_window_size_witness :
  Reference.positive_prices Scenario.one_jump /\
  Reference.ratios_in_range Scenario.one_jump /\
  ((exists v,
       nth_error (Estimator.vol_1h_bps Scenario.one_jump) 12 = Some (Some v))
   <-> (Estimator.window_size <= 12)%nat).
Proof.
  split; [exact one_jump_positive|]. split; [exact one_jump_in_range|].
  exact (proj2 (proj2 (proj2 (rolling_defined_from_window_size
                                Scenario.one_jump)))
           one_jump_positive one_jump_in_range 12%nat ltac:(simpl; lia)).
Defined.






(** C9: when every non-empty page ends at or after the [startTime] it was
    asked for, each pass moves [current_start_ms] forward by at least
    300000 ms and the loop returns within [passes_bound] passes; an
    exchange whose pages end more than 300000 ms before the requested
    start keeps the loop running for ever. *)
Theorem pagination_terminates_when_pages_reach_start :
  (forall (exchange : nat -> klines_params -> reply)
          (symbol interval : string) (end_ms : Z),
      Reference.pages_reach_start exchange ->
      (forall st st',
          Fetcher.loop_body exchange symbol interval end_ms st
            = Fetcher.Continue st' ->
          (Fetcher.current_start_ms st + 300000
             <= Fetcher.current_start_ms st')%Z) /\
      (forall st, exists r, forall fuel,
          (Reference.passes_bound end_ms (Fetcher.current_start_ms st)
             <= fuel)%nat ->
          Fetcher.fetch_loop exchange symbol interval end_ms fuel st
            = Some r)) /\
  (~ Reference.pages_reach_start Scenario.stale /\
   forall fuel,
     Fetcher.fetch_loop Scenario.stale "btcusdt" "5m" 1700086400000 fuel
       (Fetcher.mk_state 0 1700000000000 []) = None).
Proof.
  split; [|split].
  - intros exchange symbol interval end_ms Hreach. split.
    + intros st st' Hbody. eapply body_moves_forward; eassumption.
    + intros st. now apply loop_result_within_bound.
  - intros Hreach.
    specialize (Hreach 0%nat (mk_params "BTCUSDT" "5m" 0 0 1000)
                  [Scenario.flat (0 - 3600000) 100] eq_refl
                  ltac:(discriminate)).
    simpl in Hreach. lia.
  - intros fuel. apply stale_pages_never_finish. simpl. lia.
Qed.

Lemma pagination_terminates_witness :
  Reference.pages_reach_start Scenario.hourly /\
  (Fetcher.loop_body Scenario.hourly "btcusdt" "5m" 1700086400000
     (Fetcher.mk_state 0 1700000000000 [])
   = Fetcher.Continue
       (Fetcher.mk_state 1 1700000300000
          [Scenario.flat 1700000000000 100]) /\
   (1700000000000 + 300000 <= 1700000300000)%Z) /\
  exists r, forall fuel,
    (Reference.passes_bound 1700086400000 1700000000000 <= fuel)%nat ->
    Fetcher.fetch_loop Scenario.hourly "btcusdt" "5m" 1700086400000 fuel
      (Fetcher.mk_state 0 1700000000000 []) = Some r.
Proof.
  pose (run := proj1 pagination_terminates_when_pages_reach_start
                 Scenario.hourly "btcusdt"%string "5m"%string
                 1700086400000%Z hourly_pages_reach_start).
  split; [exact hourly_pages_reach_start|]. split.
  - split; [reflexivity|].
    exact (proj1 run (Fetcher.mk_state 0 1700000000000 [])
             (Fetcher.mk_state 1 1700000300000
                [Scenario.flat 1700000000000 100]) eq_refl).
  - exact (proj2 run (Fetcher.mk_state 0 1700000000000 [])).
Defined.

(** C10: in a 200 answer, [timestamps], [rolling_vols] and [prices] have
    one length, the number of klines in all the pages the loop appended. *)
Theorem response_lists_have_one_length :
  forall (exchange : nat -> klines_params -> reply)
         (sort_values : list kline -> list kline) (isoformat : Z -> string)
         (http_exception_str : Z -> string -> string)
         (symbol interval : string) (lookback_hours now_ms : Z) (fuel : nat)
         (body : Endpoint.VolatilityResponse),
    Normalizer.sorts_by_timestamp sort_values ->
    Endpoint.get_volatility exchange sort_values isoformat http_exception_str
      symbol interval lookback_hours now_ms fuel = Some (Endpoint.Ok200 body) ->
    let pages :=
      Fetcher.fetched_pages exchange symbol interval now_ms fuel
        (Fetcher.mk_state 0 (Fetcher.start_ms_of now_ms lookback_hours) []) in
    Fetcher.fetch exchange symbol interval lookback_hours now_ms fuel
      = Some (inr (concat pages)) /\
    length (Endpoint.timestamps body) = length (concat pages) /\
    length (Endpoint.rolling_vols body) = length (concat pages) /\
    length (Endpoint.prices body) = length (concat pages).
Proof.
  intros exchange sort_values isoformat http_exception_str symbol interval
    lookback_hours now_ms fuel body Hsort Hok pages.
  destruct (success_inv _ _ _ _ _ _ _ _ _ Hok) as (rows & Hfetch & _ & ->).
  assert (Hrows : rows = concat pages).
  { unfold Fetcher.fetch in Hfetch.
    apply loop_result_is_pages in Hfetch. exact Hfetch. }
  rewrite <- Hrows. split; [exact Hfetch|].
  apply respond_lengths. apply Hsort.
Qed.

Lemma response_lists_have_one_length_witness :
  Normalizer.sorts_by_timestamp Normalizer.sort_ties_kept /\
  Scenario.hour_request = Some (Endpoint.Ok200 Scenario.hour_body) /\
  length (Endpoint.timestamps Scenario.hour_body)
  = length (concat
      (Fetcher.fetched_pages (Scenario.serves Scenario.one_hour)
         "btcusdt" "5m" 1700000000000 1
         (Fetcher.mk_state 0 (Fetcher.start_ms_of 1700000000000 1) []))).
Proof.
  split; [exact sort_ties_kept_meets_contract|].
  split; [exact hour_request_answer|].
  exact (proj1 (proj2 (response_lists_have_one_length
                  (Scenario.serves Scenario.one_hour)
                  Normalizer.sort_ties_kept Scenario.no_text
                  Scenario.detail_only "btcusdt"%string "5m"%string
                  1%Z 1700000000000%Z 1%nat Scenario.hour_body
                  sort_ties_kept_meets_contract hour_request_answer))).
Defined.

(** * Further properties of the endpoint *)

Section OutcomeFacts.

Import Fetcher.
Local Open Scope Z_scope.

Variable exchange : nat -> klines_params -> reply.
Variables (symbol interval : string) (end_ms : Z).

Let loop := fetch_loop exchange symbol interval end_ms.

(** The only exception that leaves the loop is a failure the exchange
    gave to one of the requests. *)
Lemma loop_raises_only_failures (fuel : nat) :
  forall st e,
    loop fuel st = Some (inl e) ->
    exists msg st',
      e = RequestException msg /\
      current_start_ms st' < end_ms /\
      exchange (calls st') (params_of symbol interval end_ms st')
        = Failed msg.
Proof.
  induction fuel as [|fuel IH]; intros st e Hrun.
  - subst loop. simpl in Hrun.
    destruct (current_start_ms st <? end_ms); discriminate.
  - destruct (Z_lt_le_dec (current_start_ms st) end_ms) as [Hlt|Hge].
    + subst loop. rewrite loop_pass in Hrun by exact Hlt.
      unfold loop_body in Hrun.
      destruct (exchange (calls st) (params_of symbol interval end_ms st))
        as [[|k data]|msg] eqn:Hreply.
      * discriminate.
      * now apply IH in Hrun.
      * injection Hrun as <-. exists msg, st. auto.
    + subst loop. rewrite loop_exit_at_end in Hrun by exact Hge.
      discriminate.
Qed.

End OutcomeFacts.

Section SymbolCase.

Import Fetcher.
Local Open Scope Z_scope.

Variable exchange : nat -> klines_params -> reply.
Variables (interval : string) (end_ms : Z).

Lemma loop_reads_symbol_upper_cased (s1 s2 : string) (fuel : nat) :
  upper s1 = upper s2 ->
  forall st,
    fetch_loop exchange s1 interval end_ms fuel st
    = fetch_loop exchange s2 interval end_ms fuel st.
Proof.
  intros Hcase. induction fuel as [|fuel IH]; intros st; [reflexivity|].
  simpl. unfold loop_body, params_of. rewrite Hcase.
  destruct (current_start_ms st <? end_ms); [|reflexivity].
  destruct (exchange (calls st)
              (mk_params (upper s2) interval (current_start_ms st) end_ms 1000))
    as [[|k data]|msg]; try reflexivity.
  apply IH.
Qed.

End SymbolCase.

Lemma upper_ascii_idempotent (c : ascii) :
  upper_ascii (upper_ascii c) = upper_ascii c.
Proof.
  destruct c as [[] [] [] [] [] [] [] []]; reflexivity.
Qed.

Lemma upper_idempotent (s : string) : upper (upper s) = upper s.
Proof.
  induction s as [|c s IH]; simpl; [reflexivity|].
  now rewrite upper_ascii_idempotent, IH.
Qed.

(** X1: with a clock and a lookback the [datetime] arithmetic can hold,
    and an exchange that fails a request or serves well-formed klines with
    open times [pd.to_datetime] can hold, the handler ends in one of three
    ways: it returns the model built from a non-empty fetch result, or
    raises a 500: the 500 of the swallowed 404 when nothing was fetched, or
    the 500 that carries the message of a request the exchange failed.  A
    failure discards the pages fetched before it. *)
Theorem handler_ends_in_one_of_three_ways :
  forall (exchange : nat -> klines_params -> reply)
         (sort_values : list kline -> list kline) (isoformat : Z -> string)
         (http_exception_str : Z -> string -> string)
         (symbol interval : string) (lookback_hours now_ms : Z) (fuel : nat)
         (r : Endpoint.http_response),
    Reference.plain_lookback now_ms lookback_hours ->
    Reference.plain_pages exchange ->
    Endpoint.get_volatility exchange sort_values isoformat http_exception_str
      symbol interval lookback_hours now_ms fuel = Some r ->
    (Endpoint.status_of r = 200%Z \/ Endpoint.status_of r = 500%Z) /\
    ((exists rows,
         rows <> [] /\
         Fetcher.fetch exchange symbol interval lookback_hours now_ms fuel
           = Some (inr rows) /\
         r = Endpoint.Ok200
               (Endpoint.respond sort_values isoformat symbol rows)) \/
     (Fetcher.fetch exchange symbol interval lookback_hours now_ms fuel
        = Some (inr []) /\
      r = Endpoint.HttpError 500
            (http_exception_str 404%Z
               ("No data found for " ++ symbol)%string)) \/
     (exists msg n q,
         exchange n q = Failed msg /\
         p_symbol q = upper symbol /\ p_interval q = interval /\
         p_endTime q = now_ms /\ p_limit q = 1000%Z /\
         r = Endpoint.HttpError 500
               ("Error fetching data from Binance: " ++ msg)%string)).
Proof.
  intros exchange sort_values isoformat http_exception_str symbol interval
    lookback_hours now_ms fuel r _ _.
  unfold Endpoint.get_volatility, Endpoint.try_block.
  destruct (Fetcher.fetch exchange symbol interval lookback_hours now_ms fuel)
    as [[e|[|k rows]]|] eqn:Hfetch; intros [= <-].
  - unfold Fetcher.fetch in Hfetch.
    apply loop_raises_only_failures in Hfetch
      as (msg & st' & -> & _ & Hreply).
    split; [right; reflexivity|]. right. right.
    exists msg, (Fetcher.calls st'),
      (Fetcher.params_of symbol interval now_ms st').
    repeat split; [exact Hreply].
  - split; [right; reflexivity|]. right. left. split; reflexivity.
  - split; [left; reflexivity|]. left.
    exists (k :: rows). repeat split. discriminate.
Qed.

Lemma served_klines_are_in_the_book (book : list kline) (n : nat)
    (q : klines_params) (data : list kline) (k : kline) :
  Scenario.serves book n q = Page data -> In k data -> In k book.
Proof.
  unfold Scenario.serves. intros [= <-] Hin.
  now apply filter_In in Hin as [Hin _].
Qed.

Lemma one_hour_pages_are_plain :
  Reference.plain_pages (Scenario.serves Scenario.one_hour).
Proof.
  intros n q data k Hpage Hin.
  apply (served_klines_are_in_the_book _ _ _ _ _ Hpage) in Hin.
  cbv [Scenario.one_hour Scenario.hour_of_closes Scenario.book_of In] in Hin.
  repeat (destruct Hin as [<-|Hin]; [simpl; lia|]). contradiction.
Qed.

Lemma handler_ends_in_one_of_three_ways_witness :
  Reference.plain_lookback 1700000000000 1 /\
  Reference.plain_pages (Scenario.serves Scenario.one_hour) /\
  Scenario.hour_request = Some (Endpoint.Ok200 Scenario.hour_body) /\
  (Endpoint.status_of (Endpoint.Ok200 Scenario.hour_body) = 200%Z \/
   Endpoint.status_of (Endpoint.Ok200 Scenario.hour_body) = 500%Z).
Proof.
  assert (Hplain : Reference.plain_lookback 1700000000000 1)
    by (unfold Reference.plain_lookback; lia).
  split; [exact Hplain|]. split; [exact one_hour_pages_are_plain|].
  split; [exact hour_request_answer|].
  exact (proj1 (handler_ends_in_one_of_three_ways
                  (Scenario.serves Scenario.one_hour)
                  Normalizer.sort_ties_kept Scenario.no_text
                  Scenario.detail_only "btcusdt"%string "5m"%string
                  1%Z 1700000000000%Z 1%nat
                  (Endpoint.Ok200 Scenario.hour_body)
                  Hplain one_hour_pages_are_plain hour_request_answer)).
Defined.



(** X3: the symbol is read without regard to case: two symbols with the
    same upper-case form (a symbol and its upper-case form among them)
    fetch the same rows, and the 200 answers differ in the echoed symbol
    only. *)
Theorem symbol_case_does_not_matter :
  forall (exchange : nat -> klines_params -> reply)
         (sort_values : list kline -> list kline) (isoformat : Z -> string)
         (http_exception_str : Z -> string -> string)
         (s1 s2 interval : string) (lookback_hours now_ms : Z) (fuel : nat),
    upper s1 = upper s2 ->
    Fetcher.fetch exchange s1 interval lookback_hours now_ms fuel
    = Fetcher.fetch exchange s2 interval lookback_hours now_ms fuel /\
    Fetcher.fetch exchange (upper s1) interval lookback_hours now_ms fuel
    = Fetcher.fetch exchange s1 interval lookback_hours now_ms fuel /\
    (forall body,
        Endpoint.get_volatility exchange sort_values isoformat
          http_exception_str s1 interval lookback_hours now_ms fuel
        = Some (Endpoint.Ok200 body) ->
        Endpoint.get_volatility exchange sort_values isoformat
          http_exception_str s2 interval lookback_hours now_ms fuel
        = Some (Endpoint.Ok200
                  (Endpoint.mk_response s2
                     (Endpoint.average_vol body) (Endpoint.max_vol body)
                     (Endpoint.min_vol body) (Endpoint.current_vol body)
                     (Endpoint.timestamps body) (Endpoint.rolling_vols body)
                     (Endpoint.prices body)))).
Proof.
  intros exchange sort_values isoformat http_exception_str s1 s2 interval
    lookback_hours now_ms fuel Hcase.
  assert (Hsame : Fetcher.fetch exchange s1 interval lookback_hours now_ms fuel
                  = Fetcher.fetch exchange s2 interval lookback_hours now_ms
                      fuel)
    by (unfold Fetcher.fetch; now apply loop_reads_symbol_upper_cased).
  split; [exact Hsame|]. split.
  - unfold Fetcher.fetch. apply loop_reads_symbol_upper_cased.
    apply upper_idempotent.
  - intros body Hok.
    destruct (success_inv _ _ _ _ _ _ _ _ _ Hok) as (rows & Hfetch & Hne & ->).
    rewrite Hsame in Hfetch.
    rewrite (success_intro _ sort_values isoformat http_exception_str
               _ _ _ _ _ Hfetch Hne).
    reflexivity.
Qed.

Lemma symbol_case_does_not_matter_witness :
  upper "btcusdt" = upper "BtcUsdt" /\
  Fetcher.fetch (Scenario.serves Scenario.one_hour) "btcusdt" "5m" 1
    1700000000000 1
  = Fetcher.fetch (Scenario.serves Scenario.one_hour) "BtcUsdt" "5m" 1
      1700000000000 1.
Proof.
  split; [reflexivity|].
  exact (proj1 (symbol_case_does_not_matter
                  (Scenario.serves Scenario.one_hour)
                  Normalizer.sort_ties_kept Scenario.no_text
                  Scenario.detail_only "btcusdt"%string "BtcUsdt"%string
                  "5m"%string 1%Z 1700000000000%Z 1%nat eq_refl)).
Defined.

Section RequestFacts.

Import Fetcher Trace Reference.
Local Open Scope Z_scope.

Variable exchange : nat -> klines_params -> reply.
Variables (symbol interval : string) (end_ms : Z).

Let requests := requests_made exchange symbol interval end_ms.

Lemma requests_pass (fuel : nat) (st : loop_state) :
  current_start_ms st < end_ms ->
  requests (S fuel) st
  = params_of symbol interval end_ms st ::
    match loop_body exchange symbol interval end_ms st with
    | Continue st' => requests fuel st'
    | Break => []
    | Raise _ => []
    end.
Proof.
  intros Hlt. subst requests. simpl.
  apply Z.ltb_lt in Hlt. now rewrite Hlt.
Qed.

Lemma requests_none_at_end (fuel : nat) (st : loop_state) :
  end_ms <= current_start_ms st -> requests fuel st = [].
Proof.
  intros Hge. subst requests. apply Z.ltb_ge in Hge.
  destruct fuel; simpl; now rewrite Hge.
Qed.

Lemma requests_well_formed (fuel : nat) :
  forall st,
    Forall (fun q => p_symbol q = upper symbol /\ p_interval q = interval /\
                     p_endTime q = end_ms /\ p_limit q = 1000 /\
                     p_startTime q < p_endTime q)
           (requests fuel st).
Proof.
  induction fuel as [|fuel IH]; intros st.
  - subst requests. simpl. destruct (_ <? _); constructor.
  - destruct (Z_lt_le_dec (current_start_ms st) end_ms) as [Hlt|Hge].
    + rewrite requests_pass by exact Hlt. constructor.
      * simpl. repeat split. exact Hlt.
      * destruct (loop_body exchange symbol interval end_ms st);
          [apply IH | constructor | constructor].
    + rewrite requests_none_at_end by exact Hge. constructor.
Qed.

Lemma requests_start_later (fuel : nat) :
  pages_reach_start exchange ->
  forall st,
    Forall (fun q => current_start_ms st <= p_startTime q) (requests fuel st) /\
    StronglySorted (fun a b => p_startTime a + 300000 <= p_startTime b)
      (requests fuel st).
Proof.
  intros Hreach. induction fuel as [|fuel IH]; intros st.
  - subst requests. simpl. destruct (_ <? _); split; constructor.
  - destruct (Z_lt_le_dec (current_start_ms st) end_ms) as [Hlt|Hge].
    + rewrite requests_pass by exact Hlt.
      destruct (loop_body exchange symbol interval end_ms st)
        as [st'| |e] eqn:Hbody.
      * pose proof (@body_moves_forward exchange symbol interval end_ms
                      st st' Hreach Hbody) as Hstep.
        destruct (IH st') as [Hlater Hsorted].
        split; constructor; try (simpl; lia); try exact Hsorted.
        -- eapply Forall_impl; [|exact Hlater]. simpl. intros q Hq. lia.
        -- eapply Forall_impl; [|exact Hlater]. simpl. intros q Hq. lia.
      * split; repeat constructor. simpl. lia.
      * split; repeat constructor. simpl. lia.
    + rewrite requests_none_at_end by exact Hge. split; constructor.
Qed.

Lemma passes_bound_step (cur cur' : Z) :
  cur < end_ms -> cur + 300000 <= cur' ->
  (S (passes_bound end_ms cur') <= passes_bound end_ms cur)%nat.
Proof.
  intros Hlt Hstep. unfold passes_bound.
  pose proof (Z.div_mod (end_ms - cur + 299999) 300000 ltac:(lia)).
  pose proof (Z.mod_pos_bound (end_ms - cur + 299999) 300000 ltac:(lia)).
  pose proof (Z.div_mod (end_ms - cur' + 299999) 300000 ltac:(lia)).
  pose proof (Z.mod_pos_bound (end_ms - cur' + 299999) 300000 ltac:(lia)).
  set (a := (end_ms - cur + 299999) / 300000) in *.
  set (b := (end_ms - cur' + 299999) / 300000) in *.
  assert (b < a) by lia. assert (0 < a) by lia.
  clearbody a b. lia.
Qed.

Lemma requests_count (fuel : nat) :
  pages_reach_start exchange ->
  forall st,
    (length (requests fuel st)
     <= passes_bound end_ms (current_start_ms st))%nat.
Proof.
  intros Hreach. induction fuel as [|fuel IH]; intros st.
  - subst requests. simpl. destruct (_ <? _); simpl; lia.
  - destruct (Z_lt_le_dec (current_start_ms st) end_ms) as [Hlt|Hge].
    + rewrite requests_pass by exact Hlt.
      destruct (loop_body exchange symbol interval end_ms st)
        as [st'| |e] eqn:Hbody.
      * pose proof (@body_moves_forward exchange symbol interval end_ms
                      st st' Hreach Hbody) as Hstep.
        pose proof (passes_bound_step _ _ Hlt Hstep).
        specialize (IH st'). simpl. lia.
      * pose proof (@passes_bound_step (current_start_ms st)
                      (current_start_ms st + 300000) Hlt ltac:(lia)).
        simpl. lia.
      * pose proof (@passes_bound_step (current_start_ms st)
                      (current_start_ms st + 300000) Hlt ltac:(lia)).
        simpl. lia.
    + rewrite requests_none_at_end by exact Hge. simpl. lia.
Qed.

End RequestFacts.

(** X4: every request the loop sends asks for the upper-cased symbol, the
    interval as given, [endTime = end_ms], [limit = 1000] and a
    [startTime] before [endTime]; when every non-empty page ends at or
    after the [startTime] it was asked for, the requests start at or after
    [start_ms], each at least 300000 ms after the one before, and there
    are at most [passes_bound] of them. *)
Theorem requests_are_well_formed_and_advance :
  forall (exchange : nat -> klines_params -> reply)
         (symbol interval : string) (lookback_hours now_ms : Z) (fuel : nat),
    let start_ms := Fetcher.start_ms_of now_ms lookback_hours in
    let requests :=
      Trace.requests_made exchange symbol interval now_ms fuel
        (Fetcher.mk_state 0 start_ms []) in
    Forall (fun q => p_symbol q = upper symbol /\ p_interval q = interval /\
                     p_endTime q = now_ms /\ p_limit q = 1000%Z /\
                     (p_startTime q < p_endTime q)%Z) requests /\
    (Reference.pages_reach_start exchange ->
     Forall (fun q => (start_ms <= p_startTime q)%Z) requests /\
     StronglySorted
       (fun a b => (p_startTime a + 300000 <= p_startTime b)%Z) requests /\
     (length requests <= Reference.passes_bound now_ms start_ms)%nat).
Proof.
  intros exchange symbol interval lookback_hours now_ms fuel start_ms requests.
  split; [apply requests_well_formed|].
  intros Hreach.
  destruct (@requests_start_later exchange symbol interval now_ms fuel Hreach
              (Fetcher.mk_state 0 start_ms [])) as [Hlater Hsorted].
  split; [exact Hlater|]. split; [exact Hsorted|].
  exact (@requests_count exchange symbol interval now_ms fuel Hreach
           (Fetcher.mk_state 0 start_ms [])).
Qed.

Lemma requests_are_well_formed_and_advance_witness :
  Reference.pages_reach_start Scenario.hourly /\
  (length
     (Trace.requests_made Scenario.hourly "btcusdt" "1h" 1700000000000 1000
        (Fetcher.mk_state 0 (Fetcher.start_ms_of 1700000000000 24) []))
   <= Reference.passes_bound 1700000000000
        (Fetcher.start_ms_of 1700000000000 24))%nat.
Proof.
  split; [exact hourly_pages_reach_start|].
  exact (proj2 (proj2 (proj2 (requests_are_well_formed_and_advance
           Scenario.hourly "btcusdt"%string "1h"%string 24%Z
           1700000000000%Z 1000%nat) hourly_pages_reach_start))).
Defined.

(** * Pagination against an exchange that serves a book *)

Section OrderFacts.

Variable A : Type.
Variable before : A -> A -> Prop.

Lemma sorted_app_inv (l1 l2 : list A) :
  StronglySorted before (l1 ++ l2) ->
  StronglySorted before l1 /\ StronglySorted before l2 /\
  (forall a b, In a l1 -> In b l2 -> before a b).
Proof.
  induction l1 as [|x l1 IH]; simpl; intros Hsorted.
  - repeat split; [constructor | exact Hsorted | contradiction].
  - apply StronglySorted_inv in Hsorted as [Hrest Hhead].
    destruct (IH Hrest) as (H1 & H2 & Hcross).
    rewrite Forall_app in Hhead. destruct Hhead as [Hhead1 Hhead2].
    repeat split; [now constructor | exact H2 |].
    intros a b [<-|Ha] Hb; [|now apply Hcross].
    rewrite Forall_forall in Hhead2. now apply Hhead2.
Qed.

Lemma sorted_app (l1 l2 : list A) :
  StronglySorted before l1 -> StronglySorted before l2 ->
  (forall a b, In a l1 -> In b l2 -> before a b) ->
  StronglySorted before (l1 ++ l2).
Proof.
  intros H1 H2 Hcross. induction H1 as [|x l1 Hrest IH Hhead]; simpl;
    [exact H2|].
  constructor.
  - apply IH. intros a b Ha Hb. apply Hcross; [now right | exact Hb].
  - apply Forall_app. split; [exact Hhead|].
    apply Forall_forall. intros b Hb. apply Hcross; [now left | exact Hb].
Qed.

Lemma sorted_filter (f : A -> bool) (l : list A) :
  StronglySorted before l -> StronglySorted before (filter f l).
Proof.
  induction 1 as [|x l Hrest IH Hhead]; simpl; [constructor|].
  destruct (f x); [|exact IH].
  constructor; [exact IH|].
  apply Forall_forall. intros y Hy. apply filter_In in Hy as [Hy _].
  rewrite Forall_forall in Hhead. now apply Hhead.
Qed.

Lemma sorted_last (l : list A) (d : A) :
  StronglySorted before l ->
  Forall (fun a => a = last l d \/ before a (last l d)) l.
Proof.
  induction 1 as [|x l Hrest IH Hhead]; [constructor|].
  destruct l as [|y l]; [repeat constructor; now left|].
  change (last (x :: y :: l) d) with (last (y :: l) d).
  constructor; [|exact IH].
  right. rewrite Forall_forall in Hhead. apply Hhead.
  destruct (@exists_last _ (y :: l) ltac:(discriminate)) as (l' & z & Heq).
  rewrite Heq, last_last. apply in_or_app. right. now left.
Qed.

End OrderFacts.

Section BookFacts.

Import Fetcher Market.
Local Open Scope Z_scope.

Lemma five_apart_ascending (book : list kline) :
  five_minutes_apart book -> StronglySorted time_lt book.
Proof.
  unfold five_minutes_apart.
  induction 1 as [|x l Hrest IH Hhead]; constructor; [exact IH|].
  eapply Forall_impl; [|exact Hhead]. unfold time_lt. intros k Hk. lia.
Qed.

Lemma opening_from_later (t t' : Z) (book : list kline) :
  t <= t' -> opening_from t' (opening_from t book) = opening_from t' book.
Proof.
  intros Hle. unfold opening_from.
  induction book as [|k book IH]; [reflexivity|]. simpl.
  destruct (Z.leb_spec t (k_open_time k)) as [Hin|Hout]; simpl.
  - now rewrite IH.
  - destruct (Z.leb_spec t' (k_open_time k)); [lia | exact IH].
Qed.

Lemma in_range_past_book (q : klines_params) (book : list kline) :
  Forall (fun k => k_open_time k < p_endTime q) book ->
  filter (in_range q) book = opening_from (p_startTime q) book.
Proof.
  intros Hpast. unfold opening_from. apply filter_ext_in.
  intros k Hk. rewrite Forall_forall in Hpast. specialize (Hpast k Hk).
  unfold in_range.
  destruct (Z.leb_spec (k_open_time k) (p_endTime q)); [|lia].
  apply andb_true_r.
Qed.

Lemma opening_from_nothing (t : Z) (book : list kline) :
  Forall (fun k => k_open_time k < t) book -> opening_from t book = [].
Proof.
  unfold opening_from. induction 1 as [|k book Hk _ IH]; simpl;
    [reflexivity|].
  destruct (Z.leb_spec t (k_open_time k)); [lia | exact IH].
Qed.

Lemma opening_from_all (t : Z) (book : list kline) :
  Forall (fun k => t <= k_open_time k) book -> opening_from t book = book.
Proof.
  unfold opening_from. induction 1 as [|k book Hk _ IH]; simpl;
    [reflexivity|].
  destruct (Z.leb_spec t (k_open_time k)); [now rewrite IH | lia].
Qed.

(** After a page of the first [n] klines, the klines that open five
    minutes or more after the last one of the page are exactly the rest of
    the book. *)
Lemma rest_after_page (n : nat) (book : list kline) :
  five_minutes_apart book -> (1 <= n)%nat -> book <> [] ->
  opening_from (k_open_time (last_kline (firstn n book)) + 300000) book
  = skipn n book.
Proof.
  intros Hapart Hn Hne.
  assert (Hpage : firstn n book <> []).
  { destruct n as [|n]; [lia|]. destruct book; [contradiction|].
    simpl. discriminate. }
  rewrite <- (firstn_skipn n book) in Hapart.
  apply sorted_app_inv in Hapart as (Hfirst & _ & Hcross).
  set (final := last_kline (firstn n book)) in *.
  assert (Hin : In final (firstn n book)).
  { subst final. unfold last_kline.
    destruct (@exists_last _ (firstn n book) Hpage) as (l' & z & Heq).
    rewrite Heq, last_last. apply in_or_app. right. now left. }
  rewrite <- (firstn_skipn n book) at 1.
  unfold opening_from. rewrite filter_app.
  fold (opening_from (k_open_time final + 300000) (firstn n book)).
  fold (opening_from (k_open_time final + 300000) (skipn n book)).
  rewrite opening_from_nothing, opening_from_all; [reflexivity| |].
  - apply Forall_forall. intros k Hk. now apply Hcross.
  - pose proof (sorted_last _ _ _ (mk_kline 0 0 0 0 0) Hfirst) as Hlast.
    fold (last_kline (firstn n book)) in Hlast. fold final in Hlast.
    eapply Forall_impl; [|exact Hlast].
    intros k [->|Hk]; simpl in *; lia.
Qed.

Lemma firstn_nonempty_last_in (n : nat) (book : list kline) :
  (1 <= n)%nat -> book <> [] -> In (last_kline (firstn n book)) book.
Proof.
  intros Hn Hne.
  assert (Hpage : firstn n book <> []).
  { destruct n as [|n]; [lia|]. destruct book; [contradiction|].
    simpl. discriminate. }
  unfold last_kline.
  destruct (@exists_last _ (firstn n book) Hpage) as (l' & z & Heq).
  rewrite Heq, last_last.
  rewrite <- (firstn_skipn n book), Heq.
  apply in_or_app. left. apply in_or_app. right. now left.
Qed.

Variable book : list kline.
Variables (symbol interval : string) (end_ms : Z).
Hypothesis book_apart : five_minutes_apart book.
Hypothesis book_past : Forall (fun k => k_open_time k < end_ms) book.

Let loop := fetch_loop (serves_capped book) symbol interval end_ms.

(** From any state, the loop appends exactly the klines of the book that
    open at or after [current_start_ms]. *)
Lemma loop_collects_the_rest (fuel : nat) :
  forall st,
    (length (opening_from (current_start_ms st) book) < fuel)%nat ->
    loop fuel st
    = Some (inr (all_data st ++ opening_from (current_start_ms st) book)).
Proof.
  induction fuel as [|fuel IH]; intros st Hfuel; [lia|].
  destruct (Z_lt_le_dec (current_start_ms st) end_ms) as [Hlt|Hge].
  - subst loop. rewrite loop_pass by exact Hlt.
    unfold loop_body, serves_capped.
    rewrite in_range_past_book by exact book_past.
    change (p_startTime (params_of symbol interval end_ms st))
      with (current_start_ms st).
    change (p_limit (params_of symbol interval end_ms st)) with 1000.
    set (cap := Z.to_nat 1000).
    assert (Hcap : (1 <= cap)%nat) by (subst cap; lia).
    clearbody cap.
    set (rest := opening_from (current_start_ms st) book) in *.
    destruct (firstn cap rest) as [|k page] eqn:Hpage.
    + assert (Hrest : rest = []).
      { destruct rest; [reflexivity|]. destruct cap; [lia|discriminate]. }
      now rewrite Hrest, app_nil_r.
    + assert (Hne : rest <> []).
      { intros Hnil. rewrite Hnil in Hpage. destruct cap; discriminate. }
      assert (Hapart : five_minutes_apart rest)
        by (apply sorted_filter; exact book_apart).
      pose proof (rest_after_page _ _ Hapart Hcap Hne) as Hsplit.
      pose proof (firstn_nonempty_last_in _ _ Hcap Hne) as Hin.
      rewrite Hpage in Hsplit, Hin.
      apply filter_In in Hin as [_ Hfrom]. apply Z.leb_le in Hfrom.
      subst rest.
      rewrite opening_from_later in Hsplit by lia.
      rewrite IH.
      * cbn [all_data current_start_ms]. rewrite Hsplit, <- app_assoc.
        rewrite <- Hpage, firstn_skipn. reflexivity.
      * cbn [current_start_ms]. rewrite Hsplit, length_skipn.
        assert (length (firstn cap (opening_from (current_start_ms st) book))
                = S (length page)) by (now rewrite Hpage).
        rewrite length_firstn in *. lia.
  - subst loop. rewrite loop_exit_at_end by exact Hge.
    rewrite opening_from_nothing; [now rewrite app_nil_r|].
    eapply Forall_impl; [|exact book_past]. simpl. intros k Hk. lia.
Qed.

End BookFacts.

Section ScenarioBooks.

Import Market Scenario.
Local Open Scope Z_scope.

Lemma book_of_opens_from (closes : list R) :
  forall t, Forall (fun k => t <= k_open_time k) (book_of t closes).
Proof.
  induction closes as [|c cs IH]; intros t; simpl; constructor.
  - simpl. lia.
  - eapply Forall_impl; [|apply (IH (t + 300000))]. simpl. intros k Hk. lia.
Qed.

Lemma book_of_five_apart (closes : list R) :
  forall t, five_minutes_apart (book_of t closes).
Proof.
  unfold five_minutes_apart.
  induction closes as [|c cs IH]; intros t; simpl; constructor.
  - apply IH.
  - apply book_of_opens_from.
Qed.

Lemma book_of_opens_before (closes : list R) :
  forall t,
    Forall (fun k => k_open_time k + 300000
                     <= t + 300000 * Z.of_nat (length closes))
           (book_of t closes).
Proof.
  induction closes as [|c cs IH]; intros t; cbn [length book_of];
    constructor.
  - cbn [flat k_open_time]. lia.
  - eapply Forall_impl; [|apply (IH (t + 300000))].
    cbv beta. intros k Hk. lia.
Qed.

Lemma one_hour_is_past :
  Forall (fun k => k_open_time k < 1700000000000) one_hour.
Proof.
  eapply Forall_impl; [|apply book_of_opens_before].
  cbv beta. change (length hour_of_closes) with 12%nat. intros k Hk. lia.
Qed.

End ScenarioBooks.

(** X5: against an exchange that serves, oldest first and at most
    [limit] per page, the klines of a book in which klines are at least
    five minutes apart and all opened before now, the loop returns exactly
    the klines of the book that open at or after [start_ms], each once and
    in order: no kline is lost at a page boundary and none is fetched
    twice. *)
Theorem pagination_collects_the_range :
  forall (book : list kline) (symbol interval : string)
         (lookback_hours now_ms : Z) (fuel : nat),
    Market.five_minutes_apart book ->
    Forall (fun k => (k_open_time k < now_ms)%Z) book ->
    (length book < fuel)%nat ->
    Fetcher.fetch (Market.serves_capped book) symbol interval lookback_hours
      now_ms fuel
    = Some (inr (Market.opening_from
                   (Fetcher.start_ms_of now_ms lookback_hours) book)).
Proof.
  intros book symbol interval lookback_hours now_ms fuel Hapart Hpast Hfuel.
  unfold Fetcher.fetch.
  rewrite (loop_collects_the_rest book symbol interval now_ms Hapart Hpast).
  - reflexivity.
  - cbn [Fetcher.current_start_ms]. unfold Market.opening_from.
    pose proof (filter_length_le
                  (fun k => (Fetcher.start_ms_of now_ms lookback_hours
                             <=? k_open_time k)%Z) book).
    lia.
Qed.

Lemma pagination_collects_the_range_witness :
  Market.five_minutes_apart Scenario.one_hour /\
  Forall (fun k => (k_open_time k < 1700000000000)%Z) Scenario.one_hour /\
  (length Scenario.one_hour < 13)%nat /\
  Fetcher.fetch (Market.serves_capped Scenario.one_hour) "btcusdt" "5m" 1
    1700000000000 13
  = Some (inr (Market.opening_from (Fetcher.start_ms_of 1700000000000 1)
                 Scenario.one_hour)).
Proof.
  split; [apply book_of_five_apart|]. split; [exact one_hour_is_past|].
  split; [simpl; lia|].
  exact (pagination_collects_the_range Scenario.one_hour
           "btcusdt"%string "5m"%string 1%Z 1700000000000%Z 13%nat
           (book_of_five_apart Scenario.hour_of_closes 1699996500000%Z)
           one_hour_is_past ltac:(simpl; lia)).
Defined.

(** * Pages in ascending order *)

Section AscendingFacts.

Import Fetcher Normalizer Market.
Local Open Scope Z_scope.

Lemma ascending_distinct (rows : list kline) :
  StronglySorted time_lt rows -> NoDup (map k_open_time rows).
Proof.
  induction 1 as [|k rows Hrest IH Hhead]; simpl; constructor; [|exact IH].
  intros Hin. apply in_map_iff in Hin as (k' & Heq & Hin).
  rewrite Forall_forall in Hhead. specialize (Hhead k' Hin).
  unfold time_lt in Hhead. lia.
Qed.

(** A list in strictly ascending time order has one ascending
    rearrangement, itself. *)
Lemma ascending_rearrangement_unique (rows : list kline) :
  StronglySorted time_lt rows ->
  forall rows', Permutation rows rows' -> StronglySorted time_le rows' ->
  rows' = rows.
Proof.
  induction 1 as [|a rows Hrest IH Hhead]; intros rows' Hperm Hsorted.
  - now apply Permutation_nil.
  - destruct rows' as [|b rows'];
      [apply Permutation_sym, Permutation_nil in Hperm; discriminate|].
    apply StronglySorted_inv in Hsorted as [Hsorted' Hhead'].
    rewrite Forall_forall in Hhead, Hhead'.
    assert (Hab : b = a).
    { assert (Hb : In b (a :: rows))
        by (eapply Permutation_in;
            [apply Permutation_sym; exact Hperm | now left]).
      assert (Ha : In a (b :: rows'))
        by (eapply Permutation_in; [exact Hperm | now left]).
      destruct Hb as [Hb|Hb]; [now symmetry|].
      destruct Ha as [Ha|Ha]; [exact Ha|].
      specialize (Hhead b Hb). specialize (Hhead' a Ha).
      unfold time_lt, time_le in *. lia. }
    subst b. f_equal. apply IH; [|exact Hsorted'].
    now apply Permutation_cons_inv in Hperm.
Qed.

Variable exchange : nat -> klines_params -> reply.
Variables (symbol interval : string) (end_ms : Z).
Hypothesis ascending_pages : pages_ascend exchange.

Lemma loop_keeps_ascending (fuel : nat) :
  forall st rows,
    StronglySorted time_lt (all_data st) ->
    Forall (fun k => k_open_time k < current_start_ms st) (all_data st) ->
    fetch_loop exchange symbol interval end_ms fuel st = Some (inr rows) ->
    StronglySorted time_lt rows.
Proof.
  induction fuel as [|fuel IH]; intros st rows Hsorted Hbelow Hrun.
  - simpl in Hrun. destruct (current_start_ms st <? end_ms);
      [discriminate|]. now injection Hrun as <-.
  - destruct (Z_lt_le_dec (current_start_ms st) end_ms) as [Hlt|Hge].
    + rewrite loop_pass in Hrun by exact Hlt. unfold loop_body in Hrun.
      destruct (exchange (calls st) (params_of symbol interval end_ms st))
        as [[|k data]|msg] eqn:Hreply; [now injection Hrun as <- | |
                                        discriminate].
      destruct (ascending_pages _ _ _ Hreply) as [Hpage Hfrom].
      change (p_startTime (params_of symbol interval end_ms st))
        with (current_start_ms st) in Hfrom.
      pose proof (sorted_last _ _ _ (mk_kline 0 0 0 0 0) Hpage) as Hlast.
      fold (last_kline (k :: data)) in Hlast.
      apply IH in Hrun; [exact Hrun | |]; cbn [all_data current_start_ms].
      * apply sorted_app; [exact Hsorted | exact Hpage |].
        intros a b Ha Hb. rewrite Forall_forall in Hbelow, Hfrom.
        specialize (Hbelow a Ha). specialize (Hfrom b Hb).
        unfold time_lt. lia.
      * apply Forall_app. split.
        -- rewrite Forall_forall in Hlast.
           assert (Hk : In k (k :: data)) by now left.
           pose proof (Forall_inv Hfrom) as Hfirst. cbv beta in Hfirst.
           assert (Hreach : current_start_ms st
                            <= k_open_time (last_kline (k :: data))).
           { destruct (Hlast k Hk) as [Heq|Hless];
               [rewrite <- Heq; exact Hfirst | unfold time_lt in Hless; lia]. }
           eapply Forall_impl; [|exact Hbelow].
           cbv beta. intros a Ha. lia.
        -- eapply Forall_impl; [|exact Hlast].
           cbv beta. intros a [->|Ha]; unfold time_lt in *; lia.
    + rewrite loop_exit_at_end in Hrun by exact Hge.
      now injection Hrun as <-.
Qed.

End AscendingFacts.

Lemma serves_capped_ascends (book : list kline) :
  StronglySorted Market.time_lt book ->
  Market.pages_ascend (Market.serves_capped book).
Proof.
  intros Hbook n q data Hreply. unfold Market.serves_capped in Hreply.
  injection Hreply as <-.
  set (cap := Z.to_nat (p_limit q)). clearbody cap.
  pose proof (sorted_filter _ _ (Market.in_range q) book Hbook) as Hsorted.
  rewrite <- (firstn_skipn cap) in Hsorted.
  apply sorted_app_inv in Hsorted as (Hpage & _ & _).
  split; [exact Hpage|].
  apply Forall_forall. intros k Hk.
  assert (Hin : In k (filter (Market.in_range q) book)).
  { rewrite <- (firstn_skipn cap). apply in_or_app. now left. }
  apply filter_In in Hin as [_ Hin]. unfold Market.in_range in Hin.
  apply andb_true_iff in Hin as [Hin _]. now apply Z.leb_le.
Qed.

(** X6: when every page comes in strictly ascending time order and starts
    at or after the [startTime] it was asked for, the accumulated rows are
    in strictly ascending time order across pages, so no timestamp occurs
    twice, sorting changes nothing whichever sort is used, and [prices] and
    [timestamps] list the klines in the order they were fetched. *)
Theorem ascending_pages_need_no_sorting :
  forall (exchange : nat -> klines_params -> reply)
         (sort_values : list kline -> list kline) (isoformat : Z -> string)
         (http_exception_str : Z -> string -> string)
         (symbol interval : string) (lookback_hours now_ms : Z) (fuel : nat)
         (body : Endpoint.VolatilityResponse),
    Market.pages_ascend exchange ->
    Normalizer.sorts_by_timestamp sort_values ->
    Endpoint.get_volatility exchange sort_values isoformat http_exception_str
      symbol interval lookback_hours now_ms fuel = Some (Endpoint.Ok200 body) ->
    exists rows,
      Fetcher.fetch exchange symbol interval lookback_hours now_ms fuel
        = Some (inr rows) /\
      StronglySorted Market.time_lt rows /\
      NoDup (map k_open_time rows) /\
      Normalizer.normalize sort_values rows = rows /\
      Endpoint.prices body = map k_close rows /\
      Endpoint.timestamps body
      = map (fun k => isoformat (k_open_time k)) rows.
Proof.
  intros exchange sort_values isoformat http_exception_str symbol interval
    lookback_hours now_ms fuel body Hpages [Hperm Hsorted] Hok.
  destruct (success_inv _ _ _ _ _ _ _ _ _ Hok) as (rows & Hfetch & _ & ->).
  exists rows.
  assert (Hrows : StronglySorted Market.time_lt rows).
  { unfold Fetcher.fetch in Hfetch.
    eapply loop_keeps_ascending; [exact Hpages | | | exact Hfetch];
      constructor. }
  assert (Hsame : Normalizer.normalize sort_values rows = rows).
  { unfold Normalizer.normalize.
    apply ascending_rearrangement_unique;
      [exact Hrows | apply Hperm | apply Hsorted]. }
  split; [exact Hfetch|]. split; [exact Hrows|].
  split; [now apply ascending_distinct|]. split; [exact Hsame|].
  unfold Endpoint.respond. cbn [Endpoint.prices Endpoint.timestamps].
  rewrite Hsame. split; reflexivity.
Qed.

Lemma ascending_pages_need_no_sorting_witness :
  Market.pages_ascend (Market.serves_capped Scenario.one_hour) /\
  Normalizer.sorts_by_timestamp Normalizer.sort_ties_reversed /\
  Endpoint.get_volatility (Market.serves_capped Scenario.one_hour)
    Normalizer.sort_ties_reversed Scenario.no_text Scenario.detail_only
    "btcusdt" "5m" 1 1700000000000 1
  = Some (Endpoint.Ok200
            (Endpoint.respond Normalizer.sort_ties_reversed Scenario.no_text
               "btcusdt" Scenario.one_hour)) /\
  exists rows,
    Fetcher.fetch (Market.serves_capped Scenario.one_hour) "btcusdt" "5m" 1
      1700000000000 1 = Some (inr rows) /\
    StronglySorted Market.time_lt rows /\
    NoDup (map k_open_time rows) /\
    Normalizer.normalize Normalizer.sort_ties_reversed rows = rows /\
    Endpoint.prices
      (Endpoint.respond Normalizer.sort_ties_reversed Scenario.no_text
         "btcusdt" Scenario.one_hour) = map k_close rows /\
    Endpoint.timestamps
      (Endpoint.respond Normalizer.sort_ties_reversed Scenario.no_text
         "btcusdt" Scenario.one_hour)
    = map (fun k => Scenario.no_text (k_open_time k)) rows.
Proof.
  assert (Hpages : Market.pages_ascend
                     (Market.serves_capped Scenario.one_hour))
    by (apply serves_capped_ascends, five_apart_ascending,
          book_of_five_apart).
  split; [exact Hpages|].
  split; [exact sort_ties_reversed_meets_contract|].
  split; [reflexivity|].
  exact (ascending_pages_need_no_sorting
           (Market.serves_capped Scenario.one_hour)
           Normalizer.sort_ties_reversed Scenario.no_text
           Scenario.detail_only "btcusdt"%string "5m"%string 1%Z
           1700000000000%Z 1%nat _ Hpages
           sort_ties_reversed_meets_contract eq_refl).
Defined.

(** * Further properties of the estimator *)

Section OutputFacts.

Import Estimator Reference.
Local Open Scope R_scope.

(** A defined rolling cell is not negative, whatever the prices. *)
Lemma vol_cell_nonneg (closes : list R) (i : nat) (v : R) :
  nth_error (vol_1h_bps closes) i = Some (Some v) -> 0 <= v.
Proof.
  intros Hv.
  assert (Hi : (i < length closes)%nat).
  { rewrite <- vol_1h_bps_length. apply nth_error_Some. congruence. }
  rewrite vol_1h_bps_nth in Hv by exact Hi.
  revert Hv. cbv zeta.
  match goal with
  | |- Some (to_hourly_bps ?cell) = _ -> _ =>
      intros Hv; assert (Hscaled : to_hourly_bps cell = Some v)
        by congruence;
      apply (@to_hourly_bps_nonneg cell v); [|exact Hscaled]
  end.
  intros x.
  match goal with
  | |- (if ?enough then _ else _) = _ -> _ => destruct enough
  end; [apply std_ddof1_nonneg | discriminate].
Qed.

Lemma overall_vol_nonneg (closes : list R) (a : R) :
  overall_vol closes = Some a -> 0 <= a.
Proof.
  unfold overall_vol, series_std. apply to_hourly_bps_nonneg.
  intros x. destruct (has_infinity (returns_of closes)); [discriminate|].
  apply std_ddof1_nonneg.
Qed.

Lemma fillna0_In (s : series) (x : R) :
  In x (fillna0 s) -> x = 0 \/ exists i, nth_error s i = Some (Some x).
Proof.
  intros Hin. unfold fillna0 in Hin.
  apply in_map_iff in Hin as ([v|] & Heq & Hin); [|now left].
  right. subst v. now apply In_nth_error.
Qed.

Lemma iloc_last_defined (s : series) (c : R) :
  iloc_last s = Some c -> exists i, nth_error s i = Some (Some c).
Proof.
  intros Hlast. destruct s as [|a s]; [discriminate|].
  exists (length (a :: s) - 1)%nat.
  rewrite iloc_last_nth by discriminate. now f_equal.
Qed.

(** What the four scalars are, by the number of rows, for positive
    prices with quotients in range. *)
Lemma overall_vol_defined_iff (closes : list R) :
  positive_prices closes -> ratios_in_range closes ->
  (overall_vol closes = None <-> (length closes <= 2)%nat).
Proof.
  intros Hpos Hrange. rewrite (overall_vol_positive Hpos Hrange).
  unfold std_ddof1. rewrite log_returns_length.
  destruct (Nat.leb_spec (length closes - 1) 1); simpl; split;
    try reflexivity; try discriminate; lia.
Qed.

Lemma row_12_defined (closes : list R) :
  positive_prices closes -> ratios_in_range closes ->
  (window_size < length closes)%nat ->
  exists v, nth_error (vol_1h_bps closes) window_size = Some (Some v).
Proof.
  intros Hpos Hrange Hlen.
  destruct (@vol_1h_bps_late closes window_size Hpos Hrange Hlen (le_n _))
    as [Hnth Hwin].
  destruct (@std_ddof1_defined
              (skipn (window_size - window_size)
                 (firstn window_size (log_returns closes))))
    as [sd Hsd]; [rewrite Hwin, window_size_is_12; lia|].
  rewrite Hnth, Hsd. simpl. eauto.
Qed.

Lemma short_column_all_nan (closes : list R) :
  (length closes <= window_size)%nat ->
  forall i c, nth_error (vol_1h_bps closes) i = Some c -> c = None.
Proof.
  intros Hlen i c Hc.
  assert (Hi : (i < length closes)%nat).
  { rewrite <- vol_1h_bps_length. apply nth_error_Some. congruence. }
  rewrite vol_1h_bps_early in Hc by lia. congruence.
Qed.

End OutputFacts.

(** X7: in a 200 answer no number is negative: every entry of
    [rolling_vols] lies between 0 and [max_vol], and [min_vol],
    [current_vol] and [max_vol], where they are numbers, satisfy
    [0 <= min_vol <= current_vol <= max_vol]; [average_vol] is not
    negative either. *)
Theorem response_numbers_are_ordered :
  forall (exchange : nat -> klines_params -> reply)
         (sort_values : list kline -> list kline) (isoformat : Z -> string)
         (http_exception_str : Z -> string -> string)
         (symbol interval : string) (lookback_hours now_ms : Z) (fuel : nat)
         (body : Endpoint.VolatilityResponse),
    Endpoint.get_volatility exchange sort_values isoformat http_exception_str
      symbol interval lookback_hours now_ms fuel = Some (Endpoint.Ok200 body) ->
    Forall (fun x => (0 <= x)%R) (Endpoint.rolling_vols body) /\
    (forall hi, Endpoint.max_vol body = Some hi ->
       Forall (fun x => (x <= hi)%R) (Endpoint.rolling_vols body)) /\
    (forall lo hi, Endpoint.min_vol body = Some lo ->
       Endpoint.max_vol body = Some hi ->
       (0 <= lo <= hi)%R /\
       (forall c, Endpoint.current_vol body = Some c -> (lo <= c <= hi)%R)) /\
    (forall a, Endpoint.average_vol body = Some a -> (0 <= a)%R).
Proof.
  intros exchange sort_values isoformat http_exception_str symbol interval
    lookback_hours now_ms fuel body Hok.
  destruct (success_inv _ _ _ _ _ _ _ _ _ Hok) as (rows & _ & _ & ->).
  unfold Endpoint.respond.
  cbn [Endpoint.rolling_vols Endpoint.max_vol Endpoint.min_vol
       Endpoint.current_vol Endpoint.average_vol].
  set (closes := map k_close (Normalizer.normalize sort_values rows)).
  split; [|split; [|split]].
  - apply Forall_forall. intros x Hx.
    apply fillna0_In in Hx as [->|[i Hi]]; [lra|].
    eapply vol_cell_nonneg; exact Hi.
  - intros hi Hmax. apply series_max_spec in Hmax as [[j Hj] Hmax].
    apply Forall_forall. intros x Hx.
    apply fillna0_In in Hx as [->|[i Hi]].
    + eapply vol_cell_nonneg; exact Hj.
    + eapply Hmax; exact Hi.
  - intros lo hi Hmin Hmax.
    apply series_min_spec in Hmin as [[i Hi] Hmin].
    apply series_max_spec in Hmax as [[j Hj] Hmax].
    pose proof (vol_cell_nonneg _ _ _ Hi). pose proof (Hmax _ _ Hi).
    split; [lra|]. intros c Hc.
    apply iloc_last_defined in Hc as [n Hn].
    pose proof (Hmin _ _ Hn). pose proof (Hmax _ _ Hn). lra.
  - intros a. apply overall_vol_nonneg.
Qed.

Lemma response_numbers_are_ordered_witness :
  Scenario.jump_request = Some (Endpoint.Ok200 Scenario.jump_body) /\
  Forall (fun x => (0 <= x)%R) (Endpoint.rolling_vols Scenario.jump_body).
Proof.
  split; [exact jump_request_answer|].
  exact (proj1 (response_numbers_are_ordered
                  (Scenario.serves Scenario.jump_book)
                  Normalizer.sort_ties_kept Scenario.no_text
                  Scenario.detail_only "btcusdt"%string "5m"%string
                  2%Z 1700000000000%Z 1%nat Scenario.jump_body
                  jump_request_answer)).
Defined.

(** X8: for positive prices whose consecutive quotients are within the
    range of binary64, which scalars of the model the handler returns are
    NaN depends on the number of klines alone: [average_vol] is NaN exactly
    when there are fewer than three klines, and [max_vol], [min_vol] and
    [current_vol] are NaN exactly when there are fewer than thirteen. *)
Theorem nan_scalars_by_row_count :
  forall (exchange : nat -> klines_params -> reply)
         (sort_values : list kline -> list kline) (isoformat : Z -> string)
         (http_exception_str : Z -> string -> string)
         (symbol interval : string) (lookback_hours now_ms : Z) (fuel : nat)
         (body : Endpoint.VolatilityResponse),
    Endpoint.get_volatility exchange sort_values isoformat http_exception_str
      symbol interval lookback_hours now_ms fuel = Some (Endpoint.Ok200 body) ->
    Normalizer.sorts_by_timestamp sort_values ->
    Reference.positive_prices (Endpoint.prices body) ->
    Reference.ratios_in_range (Endpoint.prices body) ->
    let rows := length (Endpoint.prices body) in
    (1 <= rows)%nat /\
    (Endpoint.average_vol body = None <-> (rows < 3)%nat) /\
    (Endpoint.max_vol body = None <-> (rows < 13)%nat) /\
    (Endpoint.min_vol body = None <-> (rows < 13)%nat) /\
    (Endpoint.current_vol body = None <-> (rows < 13)%nat).
Proof.
  intros exchange sort_values isoformat http_exception_str symbol interval
    lookback_hours now_ms fuel body Hok [Hperm _] Hpos Hrange rows.
  destruct (success_inv _ _ _ _ _ _ _ _ _ Hok) as (fetched & _ & Hne & ->).
  subst rows. unfold Endpoint.respond in *.
  cbn [Endpoint.prices Endpoint.max_vol Endpoint.min_vol
       Endpoint.current_vol Endpoint.average_vol] in *.
  set (closes := map k_close (Normalizer.normalize sort_values fetched)) in *.
  assert (Hrows : (1 <= length closes)%nat).
  { subst closes. unfold Normalizer.normalize.
    rewrite length_map, <- (Permutation_length (Hperm fetched)).
    destruct fetched; [contradiction | simpl; lia]. }
  split; [exact Hrows|].
  split; [rewrite (overall_vol_defined_iff _ Hpos Hrange); lia|].
  destruct (le_lt_dec (length closes) Estimator.window_size) as [Hshort|Hlong].
  - destruct (@series_extrema_all_nan _ (short_column_all_nan _ Hshort))
      as [Hmin Hmax].
    assert (Hclose : closes <> [])
      by (intros Hnil; rewrite Hnil in Hrows; simpl in Hrows; lia).
    destruct (last_cell_short Hclose Hshort) as [Hlast _].
    rewrite Hmin, Hmax, Hlast. rewrite window_size_is_12 in Hshort.
    repeat split; intros; try reflexivity; lia.
  - destruct (row_12_defined _ Hpos Hrange Hlong) as [v Hv].
    destruct (series_extrema_defined _ _ Hv) as [[lo Hmin] [hi Hmax]].
    destruct (last_cell_long Hpos Hrange Hlong) as (c & Hlast & _).
    rewrite Hmin, Hmax, Hlast. rewrite window_size_is_12 in Hlong.
    repeat split; intros; try discriminate; lia.
Qed.

Lemma nan_scalars_by_row_count_witness :
  Scenario.hour_request = Some (Endpoint.Ok200 Scenario.hour_body) /\
  Normalizer.sorts_by_timestamp Normalizer.sort_ties_kept /\
  Reference.positive_prices (Endpoint.prices Scenario.hour_body) /\
  Reference.ratios_in_range (Endpoint.prices Scenario.hour_body) /\
  (Endpoint.average_vol Scenario.hour_body = None
   <-> (length (Endpoint.prices Scenario.hour_body) < 3)%nat).
Proof.
  split; [exact hour_request_answer|].
  split; [exact sort_ties_kept_meets_contract|].
  split; [exact hour_of_closes_positive|].
  split; [exact hour_of_closes_in_range|].
  exact (proj1 (proj2 (nan_scalars_by_row_count
                  (Scenario.serves Scenario.one_hour)
                  Normalizer.sort_ties_kept Scenario.no_text
                  Scenario.detail_only "btcusdt"%string "5m"%string
                  1%Z 1700000000000%Z 1%nat Scenario.hour_body
                  hour_request_answer sort_ties_kept_meets_contract
                  hour_of_closes_positive hour_of_closes_in_range))).
Defined.

Section ConstantFacts.

Import Estimator Reference.
Local Open Scope R_scope.

Lemma Rsum_constant (x : R) (xs : list R) :
  Forall (eq x) xs -> Rsum xs = INR (length xs) * x.
Proof.
  induction 1 as [|y xs Hy _ IH].
  - simpl. lra.
  - subst y. change (Rsum (x :: xs)) with (x + Rsum xs).
    rewrite IH. cbn [length]. rewrite S_INR. lra.
Qed.

(** Equal values have no deviation. *)
Lemma std_ddof1_constant (x : R) (xs : list R) :
  Forall (eq x) xs -> (2 <= length xs)%nat -> std_ddof1 xs = Some 0.
Proof.
  intros Hall Hlen. unfold std_ddof1.
  destruct (Nat.leb_spec (length xs) 1); [lia|].
  assert (Hn : 0 < INR (length xs)) by (apply lt_0_INR; lia).
  assert (Hmean : mean xs = x).
  { unfold mean. rewrite (Rsum_constant x xs Hall). field. lra. }
  assert (Hdev : sum_sq_dev xs = 0).
  { unfold sum_sq_dev. rewrite Hmean.
    clear Hmean Hlen Hn H. induction Hall as [|y xs Hy _ IH]; [reflexivity|].
    subst y. change (Rsum (map (fun v => (v - x) * (v - x)) (x :: xs)))
      with ((x - x) * (x - x) + Rsum (map (fun v => (v - x) * (v - x)) xs)).
    rewrite IH. lra. }
  rewrite Hdev. unfold Rdiv. rewrite Rmult_0_l, sqrt_0. reflexivity.
Qed.

Lemma Forall_window (P : R -> Prop) (n m : nat) (xs : list R) :
  Forall P xs -> Forall P (skipn n (firstn m xs)).
Proof.
  intros Hall. apply Forall_forall. intros x Hx.
  rewrite Forall_forall in Hall. apply Hall.
  assert (Hin : In x (firstn m xs)).
  { rewrite <- (firstn_skipn n (firstn m xs)). apply in_or_app. now right. }
  rewrite <- (firstn_skipn m xs). apply in_or_app. now left.
Qed.

(** A number divided by itself is exactly 1, and [np.log 1] is exactly
    0. *)
Lemma fdiv_same (c : R) : c <> 0 -> fdiv (Finite c) (Finite c) = Finite 1.
Proof.
  intros Hc. assert (Hone : c / c = 1) by (field; exact Hc).
  rewrite fdiv_finite; [now rewrite Hone | exact Hc |].
  apply moderate_representable. rewrite Hone. lra.
Qed.

Lemma flog_one : flog (Finite 1) = Finite 0.
Proof. rewrite flog_finite by lra. now rewrite ln_1. Qed.

Lemma constant_returns (c : R) (n : nat) :
  c <> 0 -> returns_of (repeat c (S n)) = NaN :: map Finite (repeat 0 n).
Proof.
  intros Hc. apply nth_error_ext. intros [|i].
  - cbn [repeat]. destruct (returns_of_head c (repeat c n)) as [rest ->].
    reflexivity.
  - destruct (lt_dec i n) as [Hi|Hi].
    + rewrite returns_of_nth by (rewrite repeat_length; lia).
      rewrite !nth_repeat_lt by lia.
      rewrite fdiv_same by exact Hc. rewrite flog_one. cbn [nth_error].
      rewrite nth_error_map, nth_error_repeat by exact Hi. reflexivity.
    + transitivity (@None float64); [|symmetry]; apply nth_error_None.
      * rewrite returns_of_length, repeat_length. lia.
      * cbn [length]. rewrite length_map, repeat_length. lia.
Qed.

Lemma zeros_have_no_deviation (n k m : nat) :
  (2 <= length (skipn k (firstn m (repeat 0%R n))))%nat ->
  to_hourly_bps (std_ddof1 (skipn k (firstn m (repeat 0 n)))) = Some 0.
Proof.
  intros Hlen. rewrite (@std_ddof1_constant 0).
  - unfold to_hourly_bps. cbn [option_map]. f_equal. lra.
  - apply Forall_window. apply Forall_forall. intros x Hx.
    now apply repeat_spec in Hx.
  - exact Hlen.
Qed.

End ConstantFacts.

(** X10: constant prices have no volatility: when every close is one
    number other than zero, each quotient is exactly 1 and each return
    after row 0 exactly 0, so every rolling value from row 12 on is 0, and
    so is the whole-range value as soon as there are three closes. *)
Theorem constant_prices_have_no_volatility :
  forall (c : R) (n : nat),
    c <> 0%R ->
    (forall i, (1 <= i < n)%nat ->
       nth_error (Estimator.returns_of (repeat c n)) i
       = Some (Estimator.Finite 0)) /\
    (forall i, (i < n)%nat ->
       nth_error (Estimator.vol_1h_bps (repeat c n)) i
       = Some (if (12 <=? i)%nat then Some 0%R else None)) /\
    Estimator.overall_vol (repeat c n)
    = (if (3 <=? n)%nat then Some 0%R else None).
Proof.
  intros c [|n] Hc.
  { split; [intros i Hi; lia|]. split; [intros i Hi; lia | reflexivity]. }
  pose proof (constant_returns c n Hc) as Hreturns.
  split; [|split].
  - intros [|i] Hi; [lia|]. rewrite Hreturns. cbn [nth_error].
    rewrite nth_error_map, nth_error_repeat by lia. reflexivity.
  - intros i Hi.
    destruct (Nat.leb_spec 12 i) as [Hge|Hlt].
    + rewrite vol_1h_bps_nth by (rewrite repeat_length; exact Hi).
      cbv zeta. rewrite Hreturns, window_size_is_12.
      rewrite window_behind_nan by lia.
      assert (Hlen : length (skipn (i - 12) (firstn i (repeat 0%R n)))
                     = 12%nat).
      { rewrite length_skipn, length_firstn, repeat_length. lia. }
      rewrite Hlen. cbn [Nat.leb].
      rewrite zeros_have_no_deviation by (rewrite Hlen; lia). reflexivity.
    + apply vol_1h_bps_early;
        [rewrite repeat_length; exact Hi | rewrite window_size_is_12; lia].
  - unfold Estimator.overall_vol, Estimator.series_std. rewrite Hreturns.
    cbn [Estimator.has_infinity existsb orb Estimator.finite_cells].
    fold (Estimator.has_infinity (map Estimator.Finite (repeat 0%R n))).
    rewrite no_infinity_among_finite, finite_cells_finite.
    destruct (Nat.leb_spec 3 (S n)) as [Hge|Hlt].
    + rewrite <- (firstn_all (repeat 0%R n)).
      change (firstn (length (repeat 0%R n)) (repeat 0%R n))
        with (skipn 0 (firstn (length (repeat 0%R n)) (repeat 0%R n))).
      apply zeros_have_no_deviation.
      cbn [skipn]. rewrite firstn_all, repeat_length. lia.
    + unfold Estimator.std_ddof1. rewrite repeat_length.
      destruct (Nat.leb_spec n 1); [reflexivity | lia].
Qed.

Lemma constant_prices_have_no_volatility_witness :
  (100 <> 0)%R /\
  Estimator.overall_vol (repeat 100%R 14) = Some 0%R.
Proof.
  split; [lra|].
  exact (proj2 (proj2 (constant_prices_have_no_volatility 100%R 14%nat
                         ltac:(lra)))).
Defined.

Section PrefixFacts.

Import Estimator.

Lemma shift1_prefix (s t : column) :
  firstn (length s) (shift1 (s ++ t)) = shift1 s.
Proof.
  destruct s as [|a s]; [reflexivity|].
  change (shift1 ((a :: s) ++ t)) with (NaN :: removelast ((a :: s) ++ t)).
  change (shift1 (a :: s)) with (NaN :: removelast (a :: s)).
  cbn [length firstn]. f_equal.
  rewrite firstn_removelast by (rewrite length_app; simpl; lia).
  rewrite firstn_app.
  replace (length s - length (a :: s))%nat with 0%nat by (simpl; lia).
  cbn [firstn]. rewrite app_nil_r.
  now rewrite removelast_firstn_len.
Qed.

Lemma returns_of_prefix (closes more : list R) :
  firstn (length closes) (returns_of (closes ++ more)) = returns_of closes.
Proof.
  unfold returns_of, np_log, series_div, of_floats.
  rewrite !firstn_map, combine_firstn, map_app.
  rewrite <- (length_map Finite closes) at 1 2.
  rewrite shift1_prefix, firstn_app, firstn_all, Nat.sub_diag.
  cbn [firstn]. now rewrite app_nil_r.
Qed.

Lemma window_prefix (w i : nat) (s t : column) :
  (i < length s)%nat -> window w i (s ++ t) = window w i s.
Proof.
  intros Hi. unfold window. rewrite firstn_app.
  replace (S i - length s)%nat with 0%nat by lia.
  cbn [firstn]. now rewrite app_nil_r.
Qed.

Lemma rolling_std_prefix (w : nat) (s t : column) :
  firstn (length s) (rolling_std w (s ++ t)) = rolling_std w s.
Proof.
  unfold rolling_std. rewrite length_app, seq_app, map_app, firstn_app.
  rewrite length_map, length_seq, Nat.sub_diag. cbn [firstn].
  rewrite app_nil_r, firstn_all2 by (rewrite length_map, length_seq; lia).
  apply map_ext_in. intros i Hi. apply in_seq in Hi.
  rewrite window_prefix by lia. reflexivity.
Qed.

End PrefixFacts.

(** X11: later klines do not rewrite history: when more closes are
    appended, the returns, the rolling column and the zero-filled list sent
    out keep, on the rows already there, the values they had. *)
Theorem later_closes_keep_earlier_values :
  forall closes more : list R,
    firstn (length closes) (Estimator.returns_of (closes ++ more))
    = Estimator.returns_of closes /\
    firstn (length closes) (Estimator.vol_1h_bps (closes ++ more))
    = Estimator.vol_1h_bps closes /\
    firstn (length closes)
      (Estimator.fillna0 (Estimator.vol_1h_bps (closes ++ more)))
    = Estimator.fillna0 (Estimator.vol_1h_bps closes).
Proof.
  intros closes more.
  pose proof (returns_of_prefix closes more) as Hreturns.
  assert (Hvol : firstn (length closes)
                   (Estimator.vol_1h_bps (closes ++ more))
                 = Estimator.vol_1h_bps closes).
  { unfold Estimator.vol_1h_bps. rewrite firstn_map.
    rewrite <- (firstn_skipn (length closes)
                  (Estimator.returns_of (closes ++ more))).
    rewrite Hreturns.
    rewrite <- (returns_of_length closes) at 1.
    now rewrite rolling_std_prefix. }
  split; [exact Hreturns|]. split; [exact Hvol|].
  unfold Estimator.fillna0. rewrite firstn_map. now rewrite Hvol.
Qed.

(** * Pages and the five-minute step *)

Section GapFacts.

Import Fetcher.
Local Open Scope Z_scope.

Variable exchange : nat -> klines_params -> reply.
Variables (symbol interval : string) (end_ms : Z).
Hypothesis honours_start :
  forall n q data,
    exchange n q = Page data ->
    Forall (fun k => p_startTime q <= k_open_time k) data.

Let pages := fetched_pages exchange symbol interval end_ms.

Lemma pages_keep_their_distance (fuel : nat) :
  forall st,
    Forall (Forall (fun k => current_start_ms st <= k_open_time k))
           (pages fuel st) /\
    StronglySorted
      (fun p p' =>
         Forall (fun k => k_open_time (last_kline p) + 300000
                          <= k_open_time k) p')
      (pages fuel st).
Proof.
  induction fuel as [|fuel IH]; intros st.
  - subst pages. simpl. destruct (_ <? _); split; constructor.
  - subst pages. simpl.
    destruct (current_start_ms st <? end_ms); [|split; constructor].
    destruct (exchange (calls st) (params_of symbol interval end_ms st))
      as [[|k data]|msg] eqn:Hreply;
      [split; constructor | | split; constructor].
    pose proof (honours_start _ _ _ Hreply) as Hfrom.
    change (p_startTime (params_of symbol interval end_ms st))
      with (current_start_ms st) in Hfrom.
    set (st' := {| calls := S (calls st);
                   current_start_ms :=
                     k_open_time (last_kline (k :: data)) + 300000;
                   all_data := all_data st ++ k :: data |}).
    destruct (IH st') as [Hlater Hsorted].
    assert (Hlast : current_start_ms st
                    <= k_open_time (last_kline (k :: data))).
    { rewrite Forall_forall in Hfrom. apply Hfrom. unfold last_kline.
      destruct (@exists_last _ (k :: data) ltac:(discriminate))
        as (l' & z & Heq).
      rewrite Heq, last_last. apply in_or_app. right. now left. }
    split; constructor.
    + exact Hfrom.
    + eapply Forall_impl; [|exact Hlater]. cbv beta. intros p Hp.
      eapply Forall_impl; [|exact Hp]. cbv beta. subst st'.
      cbn [current_start_ms]. intros a Ha. lia.
    + exact Hsorted.
    + exact Hlater.
Qed.

End GapFacts.

(** X12: when the exchange never returns a kline from before the
    [startTime] it was asked for, every kline of a later page opens at
    least 300000 ms after the last kline of every earlier page, and the
    fetched rows are those pages one after the other.  So a kline that
    opens less than five minutes after the last kline of a page (as
    happens at a full page of candles shorter than five minutes) is in no
    later page. *)
Theorem later_pages_start_five_minutes_on :
  forall (exchange : nat -> klines_params -> reply)
         (symbol interval : string) (lookback_hours now_ms : Z) (fuel : nat),
    (forall n q data,
        exchange n q = Page data ->
        Forall (fun k => (p_startTime q <= k_open_time k)%Z) data) ->
    let pages :=
      Fetcher.fetched_pages exchange symbol interval now_ms fuel
        (Fetcher.mk_state 0 (Fetcher.start_ms_of now_ms lookback_hours) []) in
    StronglySorted
      (fun p p' =>
         Forall (fun k => (k_open_time (Fetcher.last_kline p) + 300000
                           <= k_open_time k)%Z) p')
      pages /\
    (forall rows,
        Fetcher.fetch exchange symbol interval lookback_hours now_ms fuel
          = Some (inr rows) ->
        rows = concat pages).
Proof.
  intros exchange symbol interval lookback_hours now_ms fuel Hstart pages.
  split.
  - apply (pages_keep_their_distance exchange symbol interval now_ms Hstart).
  - intros rows Hfetch. unfold Fetcher.fetch in Hfetch.
    apply loop_result_is_pages in Hfetch. exact Hfetch.
Qed.

Lemma later_pages_start_five_minutes_on_witness :
  (forall n q data,
      Scenario.hourly n q = Page data ->
      Forall (fun k => (p_startTime q <= k_open_time k)%Z) data) /\
  StronglySorted
    (fun p p' =>
       Forall (fun k => (k_open_time (Fetcher.last_kline p) + 300000
                         <= k_open_time k)%Z) p')
    (Fetcher.fetched_pages Scenario.hourly "btcusdt" "1h" 1700000000000 500
       (Fetcher.mk_state 0 (Fetcher.start_ms_of 1700000000000 24) [])).
Proof.
  assert (Hstart : forall n q data,
             Scenario.hourly n q = Page data ->
             Forall (fun k => (p_startTime q <= k_open_time k)%Z) data).
  { intros n q data Hreply. unfold Scenario.hourly in Hreply.
    injection Hreply as <-. repeat constructor. simpl. lia. }
  split; [exact Hstart|].
  exact (proj1 (later_pages_start_five_minutes_on Scenario.hourly
                  "btcusdt"%string "1h"%string 24%Z 1700000000000%Z 500%nat
                  Hstart)).
Defined.
